(** * Subtitle overlay controller (src/scripts/content.ts)

    A shallow embedding of the [SubtitlesManager] class of the content
    script: the controller's fields, the part of the host page it reads
    and writes (video elements, the document tree, listeners, the
    console), and each of its methods as a state transformer.

    JavaScript numbers are IEEE 754 binary64 values, so they are Rocq's
    primitive floats; [+], [-], [/], [<=] and [>=] are the primitive
    operations. *)

From Stdlib Require Import PrimFloat FloatOps SpecFloat ZArith.
From stdpp Require Import gmap strings list.

Local Open Scope string_scope.

Abbreviation number := float (only parsing).
Abbreviation node := nat (only parsing).

Notation "a +. b" := (PrimFloat.add a b) (at level 50, left associativity).
Notation "a -. b" := (PrimFloat.sub a b) (at level 50, left associativity).
Notation "a /. b" := (PrimFloat.div a b) (at level 40, left associativity).
Notation "a <=. b" := (PrimFloat.leb a b) (at level 70, no associativity).
Notation "a >=. b" := (PrimFloat.leb b a) (at level 70, no associativity).

(** ** Data received from the controller's collaborators *)

(** [Subtitle] (../context/subtitles): the three fields the script reads. *)
Record Subtitle := {
  start : number;
  end_ : number;
  text : string;
}.

(** [SubtitleSettings] (../context/settings): the fields of the default
    record built in [loadSettings]. *)
Record SubtitleSettings := {
  syncOffset : number;
  fontSize : number;
  fontColor : string;
  background : bool;
  backgroundColor : string;
  fontFamily : string;
  offsetFromBottom : number;
  textShadow : bool;
  shadowColor : string;
  verticalPadding : number;
  horizontalPadding : number;
}.

(** [VideoTarget]: [videoIndex] is tested against [undefined] and
    [videoId] is optional, so both are options. *)
Record VideoTarget := {
  frameId : number;
  documentId : string;
  videoIndex : option number;
  videoId : option string;
}.

(** ** The host page *)

(** A parsed inline style declaration: property name and value.  The
    template literals of the source are kept as their holes ([CssPx x] is
    [`${x}px`]); the browser's CSS parser is not part of the model. *)
Inductive css_value :=
  | CssText (s : string)
  | CssPx (x : number)
  | CssPx2 (x y : number).

(** An element of the document tree, with the attributes the script
    touches.  The tree is held by the child lists. *)
Record Element := {
  el_id : string;
  el_style : list (string * css_value);
  el_textContent : string;
  el_shadowRoot : option node;
  el_children : list node;
}.

Definition new_element : Element :=
  {| el_id := ""; el_style := []; el_textContent := "";
     el_shadowRoot := None; el_children := [] |}.

Record DOMRect := {
  rect_left : number;
  rect_width : number;
  rect_bottom : number;
}.

(** What the script reads from a video element.  A geometry read that
    throws is [None]. *)
Record HTMLVideoElement := {
  video_id : string;
  currentTime : number;
  getBoundingClientRect : option DOMRect;
}.

(** The outcome of [chrome.storage.local.get("subtitleSettings")]. *)
Inductive StorageResult :=
  | StorageThrows
  | StorageEmpty
  | StorageHas (s : SubtitleSettings).

(** The part of the page the script only reads during one call. *)
Record Browser := {
  document_videos : list node;
  video_element : node -> HTMLVideoElement;
  fullscreenElement : option node;
  body : node;
  scrollY : number;
  storage_get : StorageResult;
}.

Inductive EventTarget :=
  | OnVideo (v : node)
  | OnWindow
  | OnDocument.

Inductive Handler :=
  | UpdateSubtitleContent
  | UpdateSubtitlePosition
  | ScrollHandler
  | FullscreenHandler.

Record Listener := {
  l_target : EventTarget;
  l_type : string;
  l_handler : Handler;
}.

(** ** Controller state *)

(** The ten fields of [SubtitlesManager].  Elements are held by
    reference: a field stores the node, the element lives in the page. *)
Record Manager := {
  subtitles : list Subtitle;
  video : option node;
  subtitleElement : option node;
  shadowHost : option node;
  shadowRoot : option node;
  resizeObserver : option node;
  scrollHandler : option Handler;
  fullscreenHandler : option Handler;
  isFullscreen : bool;
  settings : option SubtitleSettings;
}.

(** The mutable part of the page: the element store, the next unused
    node, the registered listeners, the targets under a resize observer,
    and the console's error log. *)
Record Page := {
  dom : gmap nat Element;
  next_node : node;
  listeners : list Listener;
  observed : list node;
  console : list string;
}.

Record State := {
  this : Manager;
  page : Page;
}.

(** [new SubtitlesManager()]: the field initialisers of the class. *)
Definition new_manager : Manager :=
  {| subtitles := []; video := None; subtitleElement := None;
     shadowHost := None; shadowRoot := None; resizeObserver := None;
     scrollHandler := None; fullscreenHandler := None;
     isFullscreen := false; settings := None |}.

Definition with_subtitles (x : list Subtitle) (m : Manager) : Manager :=
  {| subtitles := x; video := video m; subtitleElement := subtitleElement
     m; shadowHost := shadowHost m; shadowRoot := shadowRoot m;
     resizeObserver := resizeObserver m; scrollHandler := scrollHandler m;
     fullscreenHandler := fullscreenHandler m; isFullscreen :=
     isFullscreen m; settings := settings m |}.

Definition with_video (x : option node) (m : Manager) : Manager :=
  {| subtitles := subtitles m; video := x; subtitleElement :=
     subtitleElement m; shadowHost := shadowHost m; shadowRoot :=
     shadowRoot m; resizeObserver := resizeObserver m; scrollHandler :=
     scrollHandler m; fullscreenHandler := fullscreenHandler m;
     isFullscreen := isFullscreen m; settings := settings m |}.

Definition with_subtitleElement (x : option node) (m : Manager) : Manager :=
  {| subtitles := subtitles m; video := video m; subtitleElement := x;
     shadowHost := shadowHost m; shadowRoot := shadowRoot m;
     resizeObserver := resizeObserver m; scrollHandler := scrollHandler m;
     fullscreenHandler := fullscreenHandler m; isFullscreen :=
     isFullscreen m; settings := settings m |}.

Definition with_shadowHost (x : option node) (m : Manager) : Manager :=
  {| subtitles := subtitles m; video := video m; subtitleElement :=
     subtitleElement m; shadowHost := x; shadowRoot := shadowRoot m;
     resizeObserver := resizeObserver m; scrollHandler := scrollHandler m;
     fullscreenHandler := fullscreenHandler m; isFullscreen :=
     isFullscreen m; settings := settings m |}.

Definition with_shadowRoot (x : option node) (m : Manager) : Manager :=
  {| subtitles := subtitles m; video := video m; subtitleElement :=
     subtitleElement m; shadowHost := shadowHost m; shadowRoot := x;
     resizeObserver := resizeObserver m; scrollHandler := scrollHandler m;
     fullscreenHandler := fullscreenHandler m; isFullscreen :=
     isFullscreen m; settings := settings m |}.

Definition with_resizeObserver (x : option node) (m : Manager) : Manager :=
  {| subtitles := subtitles m; video := video m; subtitleElement :=
     subtitleElement m; shadowHost := shadowHost m; shadowRoot :=
     shadowRoot m; resizeObserver := x; scrollHandler := scrollHandler m;
     fullscreenHandler := fullscreenHandler m; isFullscreen :=
     isFullscreen m; settings := settings m |}.

Definition with_scrollHandler (x : option Handler) (m : Manager) : Manager :=
  {| subtitles := subtitles m; video := video m; subtitleElement :=
     subtitleElement m; shadowHost := shadowHost m; shadowRoot :=
     shadowRoot m; resizeObserver := resizeObserver m; scrollHandler := x;
     fullscreenHandler := fullscreenHandler m; isFullscreen :=
     isFullscreen m; settings := settings m |}.

Definition with_fullscreenHandler (x : option Handler) (m : Manager) : Manager :=
  {| subtitles := subtitles m; video := video m; subtitleElement :=
     subtitleElement m; shadowHost := shadowHost m; shadowRoot :=
     shadowRoot m; resizeObserver := resizeObserver m; scrollHandler :=
     scrollHandler m; fullscreenHandler := x; isFullscreen := isFullscreen
     m; settings := settings m |}.

Definition with_isFullscreen (x : bool) (m : Manager) : Manager :=
  {| subtitles := subtitles m; video := video m; subtitleElement :=
     subtitleElement m; shadowHost := shadowHost m; shadowRoot :=
     shadowRoot m; resizeObserver := resizeObserver m; scrollHandler :=
     scrollHandler m; fullscreenHandler := fullscreenHandler m;
     isFullscreen := x; settings := settings m |}.

Definition with_settings (x : option SubtitleSettings) (m : Manager) : Manager :=
  {| subtitles := subtitles m; video := video m; subtitleElement :=
     subtitleElement m; shadowHost := shadowHost m; shadowRoot :=
     shadowRoot m; resizeObserver := resizeObserver m; scrollHandler :=
     scrollHandler m; fullscreenHandler := fullscreenHandler m;
     isFullscreen := isFullscreen m; settings := x |}.

Definition with_dom (x : gmap nat Element) (p : Page) : Page :=
  {| dom := x; next_node := next_node p; listeners := listeners p;
     observed := observed p; console := console p |}.

Definition with_next_node (x : node) (p : Page) : Page :=
  {| dom := dom p; next_node := x; listeners := listeners p; observed :=
     observed p; console := console p |}.

Definition with_listeners (x : list Listener) (p : Page) : Page :=
  {| dom := dom p; next_node := next_node p; listeners := x; observed :=
     observed p; console := console p |}.

Definition with_observed (x : list node) (p : Page) : Page :=
  {| dom := dom p; next_node := next_node p; listeners := listeners p;
     observed := x; console := console p |}.

Definition with_console (x : list string) (p : Page) : Page :=
  {| dom := dom p; next_node := next_node p; listeners := listeners p;
     observed := observed p; console := x |}.

(** ** Operations of the document tree *)

Definition drop_child (n : node) (e : Element) : Element :=
  {| el_id := el_id e; el_style := el_style e;
     el_textContent := el_textContent e; el_shadowRoot := el_shadowRoot e;
     el_children := filter (λ c, c ≠ n) (el_children e) |}.

Definition push_child (n : node) (e : Element) : Element :=
  {| el_id := el_id e; el_style := el_style e;
     el_textContent := el_textContent e; el_shadowRoot := el_shadowRoot e;
     el_children := el_children e ++ [n] |}.

(** [n.remove()]: the node leaves the child list that holds it. *)
Definition dom_remove (n : node) (d : gmap nat Element) : gmap nat Element :=
  drop_child n <$> d.

(** [p.appendChild(n)]: the node is first taken out of its current
    parent, then becomes the last child of [p]. *)
Definition dom_appendChild (p n : node) (d : gmap nat Element) : gmap nat Element :=
  alter (push_child n) p (dom_remove n d).

Definition is_parent (d : gmap nat Element) (p n : node) : Prop :=
  ∃ e, d !! p = Some e ∧ n ∈ el_children e.

Definition set_id (s : string) (e : Element) : Element :=
  {| el_id := s; el_style := el_style e;
     el_textContent := el_textContent e; el_shadowRoot := el_shadowRoot e;
     el_children := el_children e |}.

Definition set_shadowRoot (r : node) (e : Element) : Element :=
  {| el_id := el_id e; el_style := el_style e;
     el_textContent := el_textContent e; el_shadowRoot := Some r;
     el_children := el_children e |}.

(** [e.style.cssText = ...] replaces the whole declaration block. *)
Definition set_cssText (decls : list (string * css_value)) (e : Element) : Element :=
  {| el_id := el_id e; el_style := decls;
     el_textContent := el_textContent e; el_shadowRoot := el_shadowRoot e;
     el_children := el_children e |}.

Fixpoint set_property (k : string) (v : css_value)
    (l : list (string * css_value)) : list (string * css_value) :=
  match l with
  | [] => [(k, v)]
  | (k', v') :: l' =>
      if String.eqb k' k then (k, v) :: l' else (k', v') :: set_property k v l'
  end.

Fixpoint get_property (k : string) (l : list (string * css_value)) : option css_value :=
  match l with
  | [] => None
  | (k', v') :: l' => if String.eqb k' k then Some v' else get_property k l'
  end.

(** [e.style.<k> = v] sets one property and keeps the others. *)
Definition set_style (k : string) (v : css_value) (e : Element) : Element :=
  {| el_id := el_id e; el_style := set_property k v (el_style e);
     el_textContent := el_textContent e; el_shadowRoot := el_shadowRoot e;
     el_children := el_children e |}.

(** [e.textContent = v]; assigning [null] stores the empty string. *)
Definition set_textContent (v : option string) (e : Element) : Element :=
  {| el_id := el_id e; el_style := el_style e;
     el_textContent := default "" v; el_shadowRoot := el_shadowRoot e;
     el_children := el_children e |}.

(** ** The effect monad of the methods *)

Definition Eff (A : Type) : Type := State → A * State.

Definition ret {A} (a : A) : Eff A := λ st, (a, st).

Definition bind {A B} (c : Eff A) (k : A → Eff B) : Eff B :=
  λ st, let '(a, st') := c st in k a st'.

Notation "'do' x <- c ; k" := (bind c (λ x, k))
  (at level 10, x name, c at level 100, k at level 200).
Notation "c ;; k" := (bind c (λ _, k))
  (at level 100, k at level 200, right associativity).

Definition get_this : Eff Manager := λ st, (this st, st).

Definition update_this (f : Manager → Manager) : Eff unit :=
  λ st, (tt, {| this := f (this st); page := page st |}).

Definition update_page (f : Page → Page) : Eff unit :=
  λ st, (tt, {| this := this st; page := f (page st) |}).

Definition update_dom (f : gmap nat Element → gmap nat Element) : Eff unit :=
  update_page (λ p, with_dom (f (dom p)) p).

(** A write through an element reference. *)
Definition update_element (n : node) (f : Element → Element) : Eff unit :=
  update_dom (alter f n).

(** [document.createElement("div")]: a new, detached element. *)
Definition createElement : Eff node :=
  λ st, let n := next_node (page st) in
        (n, {| this := this st;
               page := with_next_node (S n)
                         (with_dom (<[n := new_element]> (dom (page st))) (page st)) |}).

(** [host.attachShadow({mode: "open"})]: a new root, recorded on the host. *)
Definition attachShadow (host : node) : Eff node :=
  do r <- createElement;
  update_element host (set_shadowRoot r);;
  ret r.

Definition console_error (msg : string) : Eff unit :=
  update_page (λ p, with_console (console p ++ [msg]) p).

Definition addEventListener (t : EventTarget) (ty : string) (h : Handler) : Eff unit :=
  update_page (λ p, with_listeners
    (listeners p ++ [{| l_target := t; l_type := ty; l_handler := h |}]) p).

Definition observe (v : node) : Eff unit :=
  update_page (λ p, with_observed (observed p ++ [v]) p).

(** ** JavaScript conversions used by the methods *)

(** Truthiness of an optional string: [undefined] and [""] are falsy. *)
Definition truthy (o : option string) : bool :=
  match o with
  | Some s => negb (String.eqb s "")
  | None => false
  end.

(** The array index a number denotes as a property key: a non-negative
    integer value ([-0] included), nothing otherwise. *)
Definition array_index (x : number) : option N :=
  match Prim2SF x with
  | S754_zero _ => Some 0%N
  | S754_finite false m e =>
      if (0 <=? e)%Z then Some (Z.to_N (Z.pos m * 2 ^ e))
      else if (Z.pos m mod 2 ^ (- e) =? 0)%Z
           then Some (Z.to_N (Z.pos m / 2 ^ (- e)))
           else None
  | _ => None
  end.

(** [a[x]] for a number [x]: [undefined] outside the array. *)
Definition array_get {A} (a : list A) (x : number) : option A :=
  match array_index x with
  | Some i => if (i <? N.of_nat (length a))%N then a !! N.to_nat i else None
  | None => None
  end.

(** Modelled from the spec: [isValidTimeOffset] of
    ../utils/isValidTimeOffset is not among the sources; the spec says an
    offset passes the validity check when it is numeric and finite.  The
    argument is [this.settings?.syncOffset], [undefined] being [None]. *)
Definition isValidTimeOffset (v : option number) : bool :=
  match v with
  | Some x => is_finite x
  | None => false
  end.

(** ** The methods of [SubtitlesManager] *)

Definition defaultSettings : SubtitleSettings :=
  {| syncOffset := 0; fontSize := 20; fontColor := "#ffffff";
     background := false; backgroundColor := "#000000";
     fontFamily := "Arial, sans-serif"; offsetFromBottom := 60;
     textShadow := true; shadowColor := "#000000";
     verticalPadding := 8; horizontalPadding := 8 |}.

Definition loadSettings (w : Browser) : Eff unit :=
  match storage_get w with
  | StorageHas s => update_this (with_settings (Some s))
  | StorageEmpty => update_this (with_settings (Some defaultSettings))
  | StorageThrows => console_error "Error loading subtitle settings:"
  end.

Definition findTargetVideo (w : Browser) (target : VideoTarget) : option node :=
  let videos := document_videos w in
  if truthy (videoId target) then
    find (λ v, bool_decide (Some (video_id (video_element w v)) = videoId target)) videos
  else
    match videoIndex target with
    | Some i => array_get videos i
    | None => array_get videos 0
    end.

(** The two derived values of [applyStyles]. *)
Definition derived_textShadow (s : SubtitleSettings) : string :=
  if textShadow s then "2px 2px 4px " ++ shadowColor s else "none".

Definition derived_backgroundColor (s : SubtitleSettings) : string :=
  if background s then backgroundColor s else "transparent".

Definition subtitle_cssText (s : SubtitleSettings) : list (string * css_value) :=
  [ ("color", CssText (fontColor s));
    ("font-size", CssPx (fontSize s));
    ("font-family", CssText (fontFamily s));
    ("padding", CssPx2 (verticalPadding s) (horizontalPadding s));
    ("background-color", CssText (derived_backgroundColor s));
    ("text-shadow", CssText (derived_textShadow s));
    ("text-align", CssText "center");
    ("white-space", CssText "pre-line");
    ("font-weight", CssText "bold");
    ("line-height", CssText "1.4");
    ("word-wrap", CssText "break-word");
    ("max-width", CssText "90vw") ].

Definition applyStyles : Eff unit :=
  do m <- get_this;
  match subtitleElement m, settings m with
  | Some el, Some s => update_element el (set_cssText (subtitle_cssText s))
  | _, _ => ret tt
  end.

Definition updateSubtitlePosition (w : Browser) : Eff bool :=
  do m <- get_this;
  match shadowHost m, video m, settings m with
  | Some host, Some v, Some s =>
      match getBoundingClientRect (video_element w v) with
      | Some videoRect =>
          let subtitleTop :=
            rect_bottom videoRect -. offsetFromBottom s +. scrollY w in
          let subtitleLeft := rect_left videoRect +. rect_width videoRect /. 2 in
          update_element host (set_style "top" (CssPx subtitleTop));;
          update_element host (set_style "left" (CssPx subtitleLeft));;
          ret true
      | None =>
          console_error "Error updating subtitle position:";;
          ret false
      end
  | _, _, _ => ret false
  end.

(** [isValidTimeOffset(this.settings?.syncOffset) ? this.settings.syncOffset : 0];
    reading [syncOffset] of [null] throws, which is [None]. *)
Definition timeOffset (st : option SubtitleSettings) : option number :=
  if isValidTimeOffset (syncOffset <$> st) then syncOffset <$> st else Some 0%float.

Definition covers (adjustedTime : number) (sub : Subtitle) : bool :=
  (start sub <=. adjustedTime) && (end_ sub >=. adjustedTime).

Definition updateSubtitleContent (w : Browser) : Eff bool :=
  do m <- get_this;
  match subtitleElement m, video m with
  | Some el, Some v =>
      let currentTime := currentTime (video_element w v) in
      match timeOffset (settings m) with
      | Some timeOffset =>
          let adjustedTime := currentTime +. timeOffset in
          match find (covers adjustedTime) (subtitles m) with
          | None =>
              update_element el (set_textContent None);;
              update_element el (set_style "display" (CssText "none"));;
              ret false
          | Some currentSubtitle =>
              update_element el (set_style "display" (CssText "block"));;
              update_element el (set_textContent (Some (text currentSubtitle)));;
              ret true
          end
      | None =>
          console_error "Error updating subtitle content:";;
          ret false
      end
  | _, _ => ret false
  end.

Definition appendSubtitleElement (w : Browser) : Eff unit :=
  do m <- get_this;
  match shadowHost m with
  | None => ret tt
  | Some host =>
      update_this (with_isFullscreen (bool_decide (is_Some (fullscreenElement w))));;
      do m' <- get_this;
      if isFullscreen m' then
        match fullscreenElement w with
        | Some fullscreenElement => update_dom (dom_appendChild fullscreenElement host)
        | None => update_dom (dom_appendChild (body w) host)
        end
      else update_dom (dom_appendChild (body w) host)
  end.

Definition removeSubtitleElement : Eff unit :=
  do m <- get_this;
  match shadowHost m with
  | Some host =>
      update_dom (dom_remove host);;
      update_this (with_shadowHost None)
  | None => ret tt
  end;;
  update_this (with_shadowRoot None);;
  update_this (with_subtitleElement None).

Definition host_cssText : list (string * css_value) :=
  [ ("position", CssText "absolute");
    ("z-index", CssText "2147483647");
    ("transform", CssText "translateX(-50%) translateY(-100%)") ].

Definition addSubtitleElement (w : Browser) : Eff bool :=
  do m <- get_this;
  match video m, settings m with
  | Some _, Some _ =>
      removeSubtitleElement;;
      do host <- createElement;
      update_this (with_shadowHost (Some host));;
      update_element host (set_id "subtitle-shadow-host");;
      update_element host (set_cssText host_cssText);;
      do root <- attachShadow host;
      update_this (with_shadowRoot (Some root));;
      do el <- createElement;
      update_this (with_subtitleElement (Some el));;
      update_element el (set_id "subtitle-element");;
      applyStyles;;
      updateSubtitlePosition w;;
      updateSubtitleContent w;;
      update_dom (dom_appendChild root el);;
      appendSubtitleElement w;;
      ret true
  | _, _ => ret false
  end.

Definition updateSettings (w : Browser) (s : SubtitleSettings) : Eff unit :=
  update_this (with_settings (Some s));;
  do m <- get_this;
  match subtitleElement m with
  | Some _ =>
      applyStyles;;
      updateSubtitlePosition w;;
      updateSubtitleContent w;;
      ret tt
  | None => ret tt
  end.

Definition attachEventListeners : Eff bool :=
  do m <- get_this;
  match video m with
  | None => ret false
  | Some v =>
      addEventListener (OnVideo v) "timeupdate" UpdateSubtitleContent;;
      update_this (with_resizeObserver (Some v));;
      observe v;;
      addEventListener OnWindow "resize" UpdateSubtitlePosition;;
      update_this (with_scrollHandler (Some ScrollHandler));;
      addEventListener OnWindow "scroll" ScrollHandler;;
      addEventListener OnDocument "scroll" ScrollHandler;;
      update_this (with_fullscreenHandler (Some FullscreenHandler));;
      addEventListener OnDocument "fullscreenchange" FullscreenHandler;;
      addEventListener OnDocument "webkitfullscreenchange" FullscreenHandler;;
      addEventListener OnDocument "mozfullscreenchange" FullscreenHandler;;
      addEventListener OnDocument "MSFullscreenChange" FullscreenHandler;;
      ret true
  end.

Definition handleFullscreenChange (w : Browser) : Eff unit :=
  do m <- get_this;
  let wasFullscreen := isFullscreen m in
  update_this (with_isFullscreen (bool_decide (is_Some (fullscreenElement w))));;
  do m' <- get_this;
  if negb (Bool.eqb wasFullscreen (isFullscreen m')) then
    match shadowHost m' with
    | Some host =>
        update_dom (dom_remove host);;
        appendSubtitleElement w;;
        updateSubtitlePosition w;;
        ret tt
    | None => ret tt
    end
  else ret tt.

(** [init]: the settings load is awaited, so its outcome is the one the
    browser snapshot [w] carries; the call runs to completion before any
    other handler. *)
Definition init (w : Browser) (target : VideoTarget) (subs : list Subtitle) : Eff bool :=
  update_this (with_subtitles subs);;
  loadSettings w;;
  update_this (with_video (findTargetVideo w target));;
  do m <- get_this;
  match video m with
  | None =>
      console_error "Target video not found";;
      ret false
  | Some _ =>
      addSubtitleElement w;;
      attachEventListeners;;
      ret true
  end.

(** ** Notions used to state the properties *)

Definition with_syncOffset (x : number) (s : SubtitleSettings) : SubtitleSettings :=
  {| syncOffset := x; fontSize := fontSize s; fontColor := fontColor s;
     background := background s; backgroundColor := backgroundColor s;
     fontFamily := fontFamily s; offsetFromBottom := offsetFromBottom s;
     textShadow := textShadow s; shadowColor := shadowColor s;
     verticalPadding := verticalPadding s;
     horizontalPadding := horizontalPadding s |}.

(** The offset [updateSubtitleContent] adds to the playback time. *)
Definition sync_offset (st : option SubtitleSettings) : number :=
  match st with
  | Some s => if isValidTimeOffset (Some (syncOffset s)) then syncOffset s else 0%float
  | None => 0%float
  end.

Definition adjusted_time (w : Browser) (m : Manager) (v : node) : number :=
  currentTime (video_element w v) +. sync_offset (settings m).

(** [start <= t <= end], both comparisons being those of the numbers. *)
Definition in_interval (t : number) (sub : Subtitle) : Prop :=
  (start sub <=. t) = true ∧ (t <=. end_ sub) = true.

(** The element a reference points to. *)
Definition element_at (d : gmap nat Element) (n : node) : Element :=
  default new_element (d !! n).

(** The container [appendSubtitleElement] appends the mount node to: the
    fullscreen element when there is one, the body otherwise. *)
Definition overlay_container (w : Browser) : node :=
  default (body w) (fullscreenElement w).

(** A mount node is an element carrying the id the script gives to its
    shadow host; a render surface is attached when its mount node is a
    child of some element. *)
Definition is_mount (d : gmap nat Element) (n : node) : Prop :=
  ∃ e, d !! n = Some e ∧ el_id e = "subtitle-shadow-host".

Definition surface_attached (d : gmap nat Element) (n : node) : Prop :=
  is_mount d n ∧ ∃ p, is_parent d p n.

(** Every attached render surface is the one the controller holds. *)
Definition owns_surfaces (st : State) : Prop :=
  ∀ n, surface_attached (dom (page st)) n → shadowHost (this st) = Some n.

(** The text [updateSubtitleContent] leaves in the content node. *)
Definition shown_text (t : number) (subs : list Subtitle) : string :=
  match find (covers t) subs with
  | Some sub => text sub
  | None => ""
  end.

(** The stages of [addSubtitleElement].  [torn_down] is the state after
    [removeSubtitleElement]; [prepared] the state once the host, its
    shadow root and the content node have been created; [styled] the
    state after the first style, position and content pass; [built] the
    state it returns in. *)
Definition torn_down (st : State) : State :=
  {| this := with_subtitleElement None
               (with_shadowRoot None (with_shadowHost None (this st)));
     page := with_dom
               match shadowHost (this st) with
               | Some host => dom_remove host (dom (page st))
               | None => dom (page st)
               end (page st) |}.

Definition prepared (st : State) : State :=
  let h := next_node (page st) in
  {| this := with_subtitleElement (Some (S (S h)))
               (with_shadowRoot (Some (S h)) (with_shadowHost (Some h) (this st)));
     page := with_next_node (S (S (S h)))
       (with_dom
          (alter (set_id "subtitle-element") (S (S h))
             (<[S (S h) := new_element]>
                (alter (set_shadowRoot (S h)) h
                   (<[S h := new_element]>
                      (alter (set_cssText host_cssText) h
                         (alter (set_id "subtitle-shadow-host") h
                            (<[h := new_element]> (dom (page st)))))))))
          (page st)) |}.

Definition styled (w : Browser) (st : State) : State :=
  snd (updateSubtitleContent w (snd (updateSubtitlePosition w (snd (applyStyles st))))).

Definition built (w : Browser) (st : State) : State :=
  let h := next_node (page st) in
  let st3 := styled w (prepared (torn_down st)) in
  snd (appendSubtitleElement w
         {| this := this st3;
            page := with_dom (dom_appendChild (S h) (S (S h)) (dom (page st3)))
                      (page st3) |}).

(** The state of [init] when it tests the resolved video. *)
Definition loaded (w : Browser) (target : VideoTarget) (subs : list Subtitle)
    (st : State) : State :=
  {| this := with_video (findTargetVideo w target)
               (this (snd (loadSettings w
                  {| this := with_subtitles subs (this st); page := page st |})));
     page := page (snd (loadSettings w
               {| this := with_subtitles subs (this st); page := page st |})) |}.

(** The settings [loadSettings] leaves, given the ones held before. *)
Definition settings_after_load (w : Browser) (prev : option SubtitleSettings)
    : option SubtitleSettings :=
  match storage_get w with
  | StorageHas s => Some s
  | StorageEmpty => Some defaultSettings
  | StorageThrows => prev
  end.

(** What [loadSettings] writes to the console. *)
Definition load_log (w : Browser) : list string :=
  match storage_get w with
  | StorageThrows => ["Error loading subtitle settings:"]
  | _ => []
  end.

(** ** A sample page

    Three videos in document order, nodes 1, 2 and 3, children of the
    body, node 0; only the second has an id; nothing is in fullscreen and
    no settings are stored. *)

Definition sample_video (n : node) : HTMLVideoElement :=
  {| video_id := if Nat.eqb n 2 then "v2" else "";
     currentTime := 2;
     getBoundingClientRect :=
       Some {| rect_left := 10; rect_width := 100; rect_bottom := 300 |} |}.

Definition sample_browser : Browser :=
  {| document_videos := [1; 2; 3]; video_element := sample_video;
     fullscreenElement := None; body := 0; scrollY := 5;
     storage_get := StorageEmpty |}.

Definition sample_page : Page :=
  {| dom := {[ 0 := push_child 3 (push_child 2 (push_child 1 new_element));
               1 := new_element;
               2 := set_id "v2" new_element;
               3 := new_element ]};
     next_node := 4; listeners := []; observed := []; console := [] |}.

Definition sample_state : State :=
  {| this := new_manager; page := sample_page |}.

Definition sample_target (i : option number) (id : option string) : VideoTarget :=
  {| frameId := 0; documentId := "doc"; videoIndex := i; videoId := id |}.

Definition Hi : Subtitle := {| start := 0; end_ := 2; text := "Hi" |}.
Definition Bye : Subtitle := {| start := 2; end_ := 4; text := "Bye" |}.

(** The state after [init] on the third video with the two captions:
    host 4, shadow root 5, content node 6. *)
Definition sample_running : State :=
  snd (init sample_browser (sample_target (Some 2%float) None) [Hi; Bye] sample_state).

(** The running sample with a NaN sync offset in its settings. *)
Definition sample_nan_offset : State :=
  {| this := with_settings (Some (with_syncOffset nan defaultSettings))
               (this sample_running);
     page := page sample_running |}.

(** The sample page with every video at playback time [t]. *)
Definition sample_at (t : number) : Browser :=
  {| document_videos := [1; 2; 3];
     video_element := λ n,
       {| video_id := video_id (sample_video n); currentTime := t;
          getBoundingClientRect := getBoundingClientRect (sample_video n) |};
     fullscreenElement := None; body := 0; scrollY := 5;
     storage_get := StorageEmpty |}.

(** The sample page when the geometry read throws. *)
Definition sample_no_geometry : Browser :=
  {| document_videos := [1; 2; 3];
     video_element := λ n,
       {| video_id := video_id (sample_video n); currentTime := 2;
          getBoundingClientRect := None |};
     fullscreenElement := None; body := 0; scrollY := 5;
     storage_get := StorageEmpty |}.

(** The sample page when the storage read throws. *)
Definition sample_storage_failure : Browser :=
  {| document_videos := [1; 2; 3]; video_element := sample_video;
     fullscreenElement := None; body := 0; scrollY := 5;
     storage_get := StorageThrows |}.

(** Settings with the background toggle off and a configured colour. *)
Definition sample_settings : SubtitleSettings :=
  {| syncOffset := 0; fontSize := 24; fontColor := "#ffff00";
     background := false; backgroundColor := "#112233";
     fontFamily := "serif"; offsetFromBottom := 40;
     textShadow := false; shadowColor := "#445566";
     verticalPadding := 4; horizontalPadding := 6 |}.

(** The sample page with the third video in fullscreen. *)
Definition sample_fullscreen : Browser :=
  {| document_videos := [1; 2; 3]; video_element := sample_video;
     fullscreenElement := Some 3; body := 0; scrollY := 0;
     storage_get := StorageEmpty |}.

(** The running sample after the page has entered fullscreen. *)
Definition sample_entered : State :=
  snd (handleFullscreenChange sample_fullscreen sample_running).

(** Two calls of [init] on the sample page: first the third video with
    both captions, then the video with id v2 with one caption. *)
Definition sample_twice : State :=
  snd (init sample_browser (sample_target (Some 0%float) (Some "v2")) [Bye]
         (snd (init sample_browser (sample_target (Some 2%float) None) [Hi; Bye]
                 sample_state))).

(** ** The message listener *)

Inductive MessageType :=
  | ADD_SUBTITLES
  | UPDATE_SUBTITLES
  | TOGGLE_SUBTITLES
  | DESTROY_SUBTITLES
  | UPDATE_SUBTITLE_SETTINGS.

(** [SubtitleMessage]: every field but [type] is optional.  An object or
    an array, the empty array included, is truthy, so a field passes the
    listener's tests exactly when it is present. *)
Record SubtitleMessage := {
  msg_type : MessageType;
  msg_target : option VideoTarget;
  msg_subtitles : option (list Subtitle);
  msg_visible : option bool;
  msg_settings : option SubtitleSettings;
}.

(** The object handed to [sendResponse]. *)
Record Response := {
  success : bool;
  error : option string;
}.

(** The listener registered with [chrome.runtime.onMessage]; the result is
    the argument of the one [sendResponse] call it makes, which for
    ADD_SUBTITLES happens in the promise's [then], after the listener has
    returned.  No operation of the model throws, so the [catch] branches
    are not taken. *)
Definition onMessage (w : Browser) (message : SubtitleMessage) : Eff Response :=
  match msg_type message with
  | ADD_SUBTITLES =>
      match msg_target message, msg_subtitles message with
      | Some target, Some subs =>
          do success <- init w target subs;
          ret {| success := success; error := None |}
      | _, _ =>
          ret {| success := false;
                 error := Some "Missing target or subtitles data" |}
      end
  | UPDATE_SUBTITLE_SETTINGS =>
      match msg_settings message with
      | Some s =>
          updateSettings w s;;
          ret {| success := true; error := None |}
      | None =>
          ret {| success := false; error := Some "Missing settings data" |}
      end
  | _ => ret {| success := false; error := Some "Unknown message type" |}
  end.

(** ** Event traces

    What can reach the controller: a message, or one of the page events
    its listeners are registered for, each with the browser snapshot at
    that moment.  The scroll, resize and resize-observer callbacks all
    call [updateSubtitlePosition]. *)
Inductive Event :=
  | Message (w : Browser) (message : SubtitleMessage)
  | TimeUpdate (w : Browser)
  | Reposition (w : Browser)
  | FullscreenChange (w : Browser).

Definition handle (ev : Event) (st : State) : State :=
  match ev with
  | Message w message => snd (onMessage w message st)
  | TimeUpdate w => snd (updateSubtitleContent w st)
  | Reposition w => snd (updateSubtitlePosition w st)
  | FullscreenChange w => snd (handleFullscreenChange w st)
  end.

Definition run (evs : list Event) (st : State) : State :=
  fold_left (λ s ev, handle ev s) evs st.

(** The messages the listener acts on: ADD_SUBTITLES carrying both a
    target and a caption list, and UPDATE_SUBTITLE_SETTINGS carrying
    settings.  An event is effective when it is not a message of another
    kind. *)
Definition acted_on (message : SubtitleMessage) : bool :=
  match msg_type message with
  | ADD_SUBTITLES =>
      match msg_target message, msg_subtitles message with
      | Some _, Some _ => true
      | _, _ => false
      end
  | UPDATE_SUBTITLE_SETTINGS =>
      match msg_settings message with
      | Some _ => true
      | None => false
      end
  | _ => false
  end.

Definition effective (ev : Event) : bool :=
  match ev with
  | Message _ message => acted_on message
  | _ => true
  end.

(** ** Further notions used to state properties *)

(** What an element looks like, as opposed to where it hangs. *)
Definition appearance (e : Element)
    : string * list (string * css_value) * string * option node :=
  (el_id e, el_style e, el_textContent e, el_shadowRoot e).

(** The three surface fields are set together or not at all. *)
Definition surface_coherent (m : Manager) : Prop :=
  (is_Some (shadowHost m) ↔ is_Some (subtitleElement m))
  ∧ (is_Some (shadowHost m) ↔ is_Some (shadowRoot m)).

(** The invariant of the controller: it owns every attached surface, its
    surface fields are coherent, and a surface exists only with settings. *)
Definition controller_inv (st : State) : Prop :=
  owns_surfaces st
  ∧ surface_coherent (this st)
  ∧ (is_Some (shadowHost (this st)) → is_Some (settings (this st))).

(** The eight listeners [attachEventListeners] registers for a video. *)
Definition listeners_for (v : node) : list Listener :=
  [ {| l_target := OnVideo v; l_type := "timeupdate";
       l_handler := UpdateSubtitleContent |};
    {| l_target := OnWindow; l_type := "resize";
       l_handler := UpdateSubtitlePosition |};
    {| l_target := OnWindow; l_type := "scroll"; l_handler := ScrollHandler |};
    {| l_target := OnDocument; l_type := "scroll"; l_handler := ScrollHandler |};
    {| l_target := OnDocument; l_type := "fullscreenchange";
       l_handler := FullscreenHandler |};
    {| l_target := OnDocument; l_type := "webkitfullscreenchange";
       l_handler := FullscreenHandler |};
    {| l_target := OnDocument; l_type := "mozfullscreenchange";
       l_handler := FullscreenHandler |};
    {| l_target := OnDocument; l_type := "MSFullscreenChange";
       l_handler := FullscreenHandler |} ].

(** Sample messages. *)
Definition sample_message (ty : MessageType) : SubtitleMessage :=
  {| msg_type := ty; msg_target := Some (sample_target (Some 2%float) None);
     msg_subtitles := Some [Hi; Bye]; msg_visible := None;
     msg_settings := Some sample_settings |}.

(** A sample trace: an overlay is added, time passes, the page enters
    fullscreen, settings change, the overlay is added again, the page
    leaves fullscreen, and a destroy request arrives. *)
Definition sample_trace : list Event :=
  [ Message sample_browser (sample_message ADD_SUBTITLES);
    TimeUpdate (sample_at 2.5);
    FullscreenChange sample_fullscreen;
    Message sample_fullscreen (sample_message UPDATE_SUBTITLE_SETTINGS);
    Message sample_fullscreen (sample_message ADD_SUBTITLES);
    FullscreenChange sample_browser;
    Message sample_browser (sample_message DESTROY_SUBTITLES) ].

(** The nodes the controller writes to, its mount node and content node,
    and every node it will create lie at or above the mark [N0]. *)
Definition own_nodes_above (N0 : node) (st : State) : Prop :=
  (N0 ≤ next_node (page st))%nat
  ∧ (∀ h, shadowHost (this st) = Some h → (N0 ≤ h)%nat)
  ∧ (∀ el, subtitleElement (this st) = Some el → (N0 ≤ el)%nat).

(** The running sample with a sync offset of one second. *)
Definition sample_offset_one : Manager :=
  with_settings (Some (with_syncOffset 1 defaultSettings)) (this sample_running).

(** The declarations of the mount node after the first position pass:
    those of [host_cssText], then [top] and [left] when the video's
    rectangle could be read. *)
Definition host_style (w : Browser) (v : node) (s : SubtitleSettings)
    : list (string * css_value) :=
  match getBoundingClientRect (video_element w v) with
  | Some videoRect =>
      host_cssText
      ++ [ ("top", CssPx (rect_bottom videoRect -. offsetFromBottom s +. scrollY w));
           ("left", CssPx (rect_left videoRect +. rect_width videoRect /. 2)) ]
  | None => host_cssText
  end.

(** The declarations of the content node after the first content pass:
    the style sheet of the settings, then [display]. *)
Definition content_style (s : SubtitleSettings) (t : number)
    (subs : list Subtitle) : list (string * css_value) :=
  subtitle_cssText s
  ++ [ ("display",
        CssText match find (covers t) subs with
                | Some _ => "block"
                | None => "none"
                end) ].

(** What one style, position and content pass makes of the content node
    and of the mount node. *)
Definition refreshed_content (s : SubtitleSettings) (t : number)
    (subs : list Subtitle) (e : Element) : Element :=
  {| el_id := el_id e; el_style := content_style s t subs;
     el_textContent := shown_text t subs;
     el_shadowRoot := el_shadowRoot e; el_children := el_children e |}.

Definition repositioned (w : Browser) (v : node) (s : SubtitleSettings)
    (e : Element) : Element :=
  match getBoundingClientRect (video_element w v) with
  | Some videoRect =>
      set_style "left" (CssPx (rect_left videoRect +. rect_width videoRect /. 2))
        (set_style "top"
           (CssPx (rect_bottom videoRect -. offsetFromBottom s +. scrollY w)) e)
  | None => e
  end.
(** * Properties *)

(** ** Auxiliary facts: lists, style declarations, the monad *)

Lemma find_first {A} (P : A → bool) (before : list A) (x : A) (after : list A) :
  Forall (λ a, P a = false) before →
  P x = true →
  find P (before ++ x :: after) = Some x.
Proof.
  induction 1 as [|a l Ha _ IH]; intros Hx; simpl.
  - by rewrite Hx.
  - rewrite Ha. by apply IH.
Qed.

Lemma find_nowhere {A} (P : A → bool) (l : list A) :
  Forall (λ a, P a = false) l → find P l = None.
Proof.
  induction 1 as [|a l Ha _ IH]; simpl; [done|]. by rewrite Ha.
Qed.

Lemma get_set_property_eq k v l :
  get_property k (set_property k v l) = Some v.
Proof.
  induction l as [|[k' v'] l IH]; simpl.
  - by rewrite String.eqb_refl.
  - destruct (String.eqb k' k) eqn:E; simpl.
    + by rewrite String.eqb_refl.
    + by rewrite E.
Qed.

Lemma get_set_property_ne k k' v l :
  k ≠ k' →
  get_property k' (set_property k v l) = get_property k' l.
Proof.
  intros Hne. induction l as [|[k0 v0] l IH]; simpl.
  - by apply String.eqb_neq in Hne as ->.
  - destruct (String.eqb k0 k) eqn:E; simpl.
    + apply String.eqb_eq in E as ->.
      by apply String.eqb_neq in Hne as ->.
    + by rewrite IH.
Qed.

Ltac eff :=
  unfold bind, ret, get_this, update_element, update_dom, update_this,
    update_page, console_error; simpl.

(** ** Content synchronization *)

Lemma timeOffset_total st : timeOffset st = Some (sync_offset st).
Proof.
  unfold timeOffset, sync_offset. destruct st as [s|]; simpl; [|done].
  by destruct (is_finite (syncOffset s)).
Qed.

Lemma covers_in_interval t sub : covers t sub = true ↔ in_interval t sub.
Proof. unfold covers, in_interval. apply andb_true_iff. Qed.

Lemma not_in_interval_covers t l :
  Forall (λ s, ¬ in_interval t s) l → Forall (λ s, covers t s = false) l.
Proof.
  intros H. eapply Forall_impl; [exact H|]. intros s Hs. simpl in Hs.
  destruct (covers t s) eqn:E; [|done]. by apply covers_in_interval in E.
Qed.

(** What [updateSubtitleContent] does once both guards have passed, as a
    function of the caption found. *)
Lemma updateSubtitleContent_run w st el v :
  subtitleElement (this st) = Some el →
  video (this st) = Some v →
  updateSubtitleContent w st =
    match find (covers (adjusted_time w (this st) v)) (subtitles (this st)) with
    | Some sub =>
        (true, {| this := this st;
                  page := with_dom
                    (alter (set_textContent (Some (text sub))) el
                       (alter (set_style "display" (CssText "block")) el
                          (dom (page st)))) (page st) |})
    | None =>
        (false, {| this := this st;
                   page := with_dom
                     (alter (set_style "display" (CssText "none")) el
                        (alter (set_textContent None) el (dom (page st))))
                     (page st) |})
    end.
Proof.
  intros Hel Hv. unfold updateSubtitleContent, adjusted_time. eff.
  rewrite Hel, Hv, timeOffset_total.
  by destruct (find _ _).
Qed.

(** C1: with the content node and the video present, [updateSubtitleContent]
    takes t = currentTime + offset and shows the first caption in list
    order with start <= t <= end (text displayed, node visible); when no
    caption contains t, the empty list included, it clears the text and
    hides the node. *)
Theorem updateSubtitleContent_first_match
    (w : Browser) (st : State) (el v : node) (e : Element) :
  subtitleElement (this st) = Some el →
  video (this st) = Some v →
  dom (page st) !! el = Some e →
  let t := adjusted_time w (this st) v in
  let r := updateSubtitleContent w st in
  (∀ (before : list Subtitle) (sub : Subtitle) (after : list Subtitle),
      subtitles (this st) = (before ++ sub :: after)%list →
      Forall (λ s, ¬ in_interval t s) before →
      in_interval t sub →
      fst r = true ∧
      ∃ e', dom (page (snd r)) !! el = Some e' ∧
            el_textContent e' = text sub ∧
            get_property "display" (el_style e') = Some (CssText "block"))
  ∧ (Forall (λ s, ¬ in_interval t s) (subtitles (this st)) →
      fst r = false ∧
      ∃ e', dom (page (snd r)) !! el = Some e' ∧
            el_textContent e' = "" ∧
            get_property "display" (el_style e') = Some (CssText "none"))
  ∧ (subtitles (this st) = [] → fst r = false)
  ∧ this (snd r) = this st.
Proof.
  intros Hel Hv He t r. subst r.
  rewrite (updateSubtitleContent_run w st el v Hel Hv). fold t.
  split; [|split; [|split]].
  - intros before sub after Hl Hb Hs.
    rewrite Hl, (find_first (covers t) before sub after); simpl.
    + split; [done|]. eexists. rewrite !lookup_alter_eq, He. simpl.
      split; [done|]. split; [done|]. apply get_set_property_eq.
    + by apply not_in_interval_covers.
    + by apply covers_in_interval.
  - intros Hn. rewrite (find_nowhere (covers t)); simpl.
    + split; [done|]. eexists. rewrite !lookup_alter_eq, He. simpl.
      split; [done|]. split; [done|]. apply get_set_property_eq.
    + by apply not_in_interval_covers.
  - by intros ->.
  - by destruct (find _ _).
Qed.

Lemma updateSubtitleContent_first_match_witness :
  fst (updateSubtitleContent sample_browser sample_running) = true ∧
  ∃ e', dom (page (snd (updateSubtitleContent sample_browser sample_running))) !! 6
          = Some e' ∧
        el_textContent e' = "Hi" ∧
        get_property "display" (el_style e') = Some (CssText "block").
Proof.
  pose proof (updateSubtitleContent_first_match sample_browser sample_running 6 3
    (element_at (dom (page sample_running)) 6)
    eq_refl eq_refl ltac:(vm_compute; reflexivity)) as [H _].
  apply (H [] Hi [Bye]).
  - reflexivity.
  - constructor.
  - split; vm_compute; reflexivity.
Defined.

(** The two sample captions meet at time 2.  Before it and at it the
    first one is shown, the scan stopping at the first match; the second
    one is shown only after it. *)
Example shared_boundary_shows_first :
  el_textContent <$>
    (dom (page (snd (updateSubtitleContent (sample_at 1.5) sample_running))) !! 6)
  = Some "Hi"
  ∧ el_textContent <$>
      (dom (page (snd (updateSubtitleContent (sample_at 2) sample_running))) !! 6)
    = Some "Hi"
  ∧ el_textContent <$>
      (dom (page (snd (updateSubtitleContent (sample_at 2.5) sample_running))) !! 6)
    = Some "Bye"
  ∧ el_textContent <$>
      (dom (page (snd (updateSubtitleContent (sample_at 4.5) sample_running))) !! 6)
    = Some "".
Proof. repeat split; vm_compute; reflexivity. Qed.

(** ** Malformed sync offset *)

(** The settings reach [updateSubtitleContent] through the offset only. *)
Lemma updateSubtitleContent_offset w (m1 m2 : Manager) (p : Page) :
  subtitles m1 = subtitles m2 →
  video m1 = video m2 →
  subtitleElement m1 = subtitleElement m2 →
  sync_offset (settings m1) = sync_offset (settings m2) →
  let r1 := updateSubtitleContent w {| this := m1; page := p |} in
  let r2 := updateSubtitleContent w {| this := m2; page := p |} in
  fst r1 = fst r2 ∧ page (snd r1) = page (snd r2).
Proof.
  intros Hsub Hv Hel Hoff. unfold updateSubtitleContent. eff.
  rewrite !timeOffset_total, Hsub, Hv, Hel, Hoff.
  destruct (subtitleElement m2) as [el|]; [|done].
  destruct (video m2) as [v|]; [|done].
  by destruct (find _ _).
Qed.

(** C5: a sync offset that fails the validity check is treated as zero.
    With such an offset the adjusted time is currentTime + 0, and
    [updateSubtitleContent] returns the same result and leaves the same page
    as with [syncOffset] set to 0; NaN, both infinities and a missing
    value fail the check. *)
Theorem invalid_syncOffset_is_zero (w : Browser) (st : State) (s : SubtitleSettings) :
  settings (this st) = Some s →
  isValidTimeOffset (Some (syncOffset s)) = false →
  let st0 := {| this := with_settings (Some (with_syncOffset 0 s)) (this st);
                page := page st |} in
  (∀ v, adjusted_time w (this st) v = currentTime (video_element w v) +. 0
        ∧ adjusted_time w (this st0) v = adjusted_time w (this st) v)
  ∧ fst (updateSubtitleContent w st) = fst (updateSubtitleContent w st0)
  ∧ page (snd (updateSubtitleContent w st)) = page (snd (updateSubtitleContent w st0))
  ∧ isValidTimeOffset (Some nan) = false
  ∧ isValidTimeOffset (Some infinity) = false
  ∧ isValidTimeOffset (Some neg_infinity) = false
  ∧ isValidTimeOffset None = false.
Proof.
  destruct st as [m p]. simpl. intros Hs Hbad.
  set (m0 := with_settings (Some (with_syncOffset 0 s)) m).
  assert (Hoff : sync_offset (settings m) = 0%float).
  { rewrite Hs. simpl. by rewrite Hbad. }
  assert (Hoff0 : sync_offset (settings m0) = 0%float) by reflexivity.
  destruct (updateSubtitleContent_offset w m m0 p) as [Hr Hp];
    try reflexivity; [congruence|].
  split; [|split; [|split]].
  - intros v. unfold adjusted_time. by rewrite Hoff0, Hoff.
  - exact Hr.
  - exact Hp.
  - repeat split; reflexivity.
Qed.

Lemma invalid_syncOffset_is_zero_witness :
  (∀ v, adjusted_time sample_browser (this sample_nan_offset) v
        = currentTime (video_element sample_browser v) +. 0)
  ∧ fst (updateSubtitleContent sample_browser sample_nan_offset)
    = fst (updateSubtitleContent sample_browser
        {| this := with_settings
                     (Some (with_syncOffset 0 (with_syncOffset nan defaultSettings)))
                     (this sample_nan_offset);
           page := page sample_nan_offset |}).
Proof.
  pose proof (invalid_syncOffset_is_zero sample_browser sample_nan_offset
    (with_syncOffset nan defaultSettings) eq_refl eq_refl) as (Ht & Hr & _).
  split.
  - intros v. exact (proj1 (Ht v)).
  - exact Hr.
Defined.

(** ** Target resolution *)

Lemma array_get_0 {A} (l : list A) : array_get l 0 = head l.
Proof.
  unfold array_get.
  assert (array_index 0 = Some 0%N) as -> by (vm_compute; reflexivity).
  by destruct l.
Qed.

Lemma array_get_index {A} (l : list A) (x : number) (i : N) :
  array_index x = Some i → array_get l x = l !! N.to_nat i.
Proof.
  intros Hi. unfold array_get. rewrite Hi.
  destruct (N.ltb_spec i (N.of_nat (length l))) as [Hlt|Hge]; [done|].
  symmetry. apply lookup_ge_None. lia.
Qed.

Lemma truthy_spec (o : option string) :
  truthy o = true ↔ ∃ s, o = Some s ∧ s ≠ "".
Proof.
  destruct o as [s|]; simpl.
  - rewrite negb_true_iff, String.eqb_neq. split.
    + intros Hs. by exists s.
    + by intros (s' & [= <-] & Hs).
  - split; [done|]. by intros (s & ? & _).
Qed.

Lemma falsy_spec (o : option string) :
  truthy o = false ↔ o = None ∨ o = Some "".
Proof.
  destruct o as [s|]; simpl.
  - rewrite negb_false_iff, String.eqb_eq. split.
    + intros ->. by right.
    + by intros [?|[= ->]].
  - split; [by left|done].
Qed.

(** With a truthy [videoId] the result is the search by id, whatever
    [videoIndex] holds. *)
Lemma findTargetVideo_by_id w target s :
  videoId target = Some s → s ≠ "" →
  findTargetVideo w target =
    find (λ v, bool_decide (video_id (video_element w v) = s)) (document_videos w).
Proof.
  intros Hid Hs. unfold findTargetVideo.
  assert (truthy (videoId target) = true) as ->.
  { apply truthy_spec. eauto. }
  rewrite Hid. induction (document_videos w) as [|v l IH]; simpl; [done|].
  rewrite IH. repeat case_bool_decide; naive_solver.
Qed.

(** C2: resolution precedence.  A set [videoId] (present and not the empty
    string, which is how a missing id reads) selects the first video in
    document order whose id equals it, whatever [videoIndex] is; without
    it a set [videoIndex] selects the video at that position; with neither
    the first video is selected. *)
Theorem findTargetVideo_precedence (w : Browser) (target : VideoTarget) :
  let videos := document_videos w in
  let id_of := λ v, video_id (video_element w v) in
  (∀ s, videoId target = Some s → s ≠ "" →
     ∀ (before : list node) (v : node) (after : list node),
       videos = (before ++ v :: after)%list →
       Forall (λ u, id_of u ≠ s) before →
       id_of v = s →
       findTargetVideo w target = Some v)
  ∧ (∀ s target', videoId target = Some s → s ≠ "" →
       videoId target' = Some s →
       findTargetVideo w target' = findTargetVideo w target)
  ∧ (videoId target = None ∨ videoId target = Some "" →
     ∀ x, videoIndex target = Some x →
       findTargetVideo w target = array_get videos x
       ∧ ∀ i, array_index x = Some i →
           findTargetVideo w target = videos !! N.to_nat i)
  ∧ (videoId target = None ∨ videoId target = Some "" →
     videoIndex target = None →
     findTargetVideo w target = head videos).
Proof.
  intros videos id_of. split; [|split; [|split]].
  - intros s Hid Hs before v after Hl Hb Hv.
    rewrite (findTargetVideo_by_id w target s Hid Hs). fold videos. rewrite Hl.
    apply find_first.
    + eapply Forall_impl; [exact Hb|]. intros u Hu. simpl in Hu.
      by apply bool_decide_eq_false.
    + by apply bool_decide_eq_true.
  - intros s target' Hid Hs Hid'.
    by rewrite (findTargetVideo_by_id w target s Hid Hs),
      (findTargetVideo_by_id w target' s Hid' Hs).
  - intros Hid x Hx. apply falsy_spec in Hid.
    unfold findTargetVideo. rewrite Hid, Hx. fold videos.
    split; [done|]. intros i Hi. by apply array_get_index.
  - intros Hid Hx. apply falsy_spec in Hid.
    unfold findTargetVideo. rewrite Hid, Hx. apply array_get_0.
Qed.

Lemma findTargetVideo_precedence_witness :
  findTargetVideo sample_browser (sample_target (Some 0%float) (Some "v2")) = Some 2
  ∧ findTargetVideo sample_browser (sample_target (Some 2%float) None)
    = [1; 2; 3] !! N.to_nat 2
  ∧ findTargetVideo sample_browser (sample_target None None) = head [1; 2; 3].
Proof.
  split; [|split].
  - apply (proj1 (findTargetVideo_precedence sample_browser
             (sample_target (Some 0%float) (Some "v2"))) "v2" eq_refl
             ltac:(discriminate) [1] 2 [3] eq_refl).
    + repeat constructor. discriminate.
    + reflexivity.
  - apply (proj1 (proj2 (proj2 (findTargetVideo_precedence sample_browser
             (sample_target (Some 2%float) None)))) (or_introl eq_refl)
             2%float eq_refl).
    vm_compute. reflexivity.
  - apply (proj2 (proj2 (proj2 (findTargetVideo_precedence sample_browser
             (sample_target None None)))) (or_introl eq_refl) eq_refl).
Defined.

(** C10: a set [videoId] that no video carries resolves to no video, whatever
    [videoIndex] is and whatever videos exist, and [init] then returns
    false. *)
Theorem unmatched_videoId_no_fallback
    (w : Browser) (target : VideoTarget) (s : string)
    (subs : list Subtitle) (st : State) :
  videoId target = Some s → s ≠ "" →
  Forall (λ v, video_id (video_element w v) ≠ s) (document_videos w) →
  findTargetVideo w target = None
  ∧ fst (init w target subs st) = false.
Proof.
  intros Hid Hs Hno.
  assert (Hnone : findTargetVideo w target = None).
  { rewrite (findTargetVideo_by_id w target s Hid Hs). apply find_nowhere.
    eapply Forall_impl; [exact Hno|]. intros v Hv. simpl in Hv.
    by apply bool_decide_eq_false. }
  split; [done|].
  unfold init. eff. rewrite Hnone. by destruct (loadSettings w _).
Qed.

Lemma unmatched_videoId_no_fallback_witness :
  findTargetVideo sample_browser (sample_target (Some 1%float) (Some "v9")) = None
  ∧ fst (init sample_browser (sample_target (Some 1%float) (Some "v9"))
           [Hi; Bye] sample_state) = false.
Proof.
  apply (unmatched_videoId_no_fallback sample_browser
           (sample_target (Some 1%float) (Some "v9")) "v9" [Hi; Bye] sample_state
           eq_refl ltac:(discriminate)).
  repeat constructor; discriminate.
Defined.

(** ** Initialization *)

Lemma loadSettings_page w st :
  page (snd (loadSettings w st))
  = with_console (console (page st) ++ load_log w) (page st).
Proof.
  unfold loadSettings, load_log. destruct (storage_get w); eff.
  - done.
  - destruct (page st). unfold with_console. simpl. by rewrite app_nil_r.
  - destruct (page st). unfold with_console. simpl. by rewrite app_nil_r.
Qed.

(** C3: when target resolution finds no video, [init] logs the failure and
    returns false; no element is created, the document tree is as it was,
    no listener or observer is added, and the controller's surface and
    handler fields keep their values. *)
Theorem init_target_not_found
    (w : Browser) (target : VideoTarget) (subs : list Subtitle) (st : State) :
  findTargetVideo w target = None →
  let r := init w target subs st in
  fst r = false
  ∧ console (page (snd r))
    = (console (page st) ++ load_log w ++ ["Target video not found"])%list
  ∧ dom (page (snd r)) = dom (page st)
  ∧ next_node (page (snd r)) = next_node (page st)
  ∧ listeners (page (snd r)) = listeners (page st)
  ∧ observed (page (snd r)) = observed (page st)
  ∧ shadowHost (this (snd r)) = shadowHost (this st)
  ∧ shadowRoot (this (snd r)) = shadowRoot (this st)
  ∧ subtitleElement (this (snd r)) = subtitleElement (this st)
  ∧ resizeObserver (this (snd r)) = resizeObserver (this st)
  ∧ scrollHandler (this (snd r)) = scrollHandler (this st)
  ∧ fullscreenHandler (this (snd r)) = fullscreenHandler (this st).
Proof.
  intros Hnone r. subst r. unfold init. eff. rewrite Hnone.
  unfold loadSettings, load_log.
  destruct (storage_get w); eff; rewrite <- ?app_assoc; done.
Qed.

Lemma init_target_not_found_witness :
  fst (init sample_browser (sample_target (Some 7%float) None) [Hi] sample_state)
  = false.
Proof.
  exact (proj1 (init_target_not_found sample_browser
    (sample_target (Some 7%float) None) [Hi] sample_state
    ltac:(vm_compute; reflexivity))).
Defined.

(** ** Position synchronization *)

(** C6: with the mount node, the video and the settings present,
    [updateSubtitlePosition] stores top = bottom - offsetFromBottom + scrollY
    and left = left + width / 2 on the mount node and returns true; when the
    geometry read throws it logs, returns false, and changes nothing else,
    so the stored coordinates stay as they were. *)
Theorem updateSubtitlePosition_spec
    (w : Browser) (st : State) (host v : node) (s : SubtitleSettings) (e : Element) :
  shadowHost (this st) = Some host →
  video (this st) = Some v →
  settings (this st) = Some s →
  dom (page st) !! host = Some e →
  let r := updateSubtitlePosition w st in
  (∀ videoRect, getBoundingClientRect (video_element w v) = Some videoRect →
     fst r = true
     ∧ (∃ e', dom (page (snd r)) !! host = Some e'
          ∧ get_property "top" (el_style e')
            = Some (CssPx (rect_bottom videoRect -. offsetFromBottom s +. scrollY w))
          ∧ get_property "left" (el_style e')
            = Some (CssPx (rect_left videoRect +. rect_width videoRect /. 2)))
     ∧ console (page (snd r)) = console (page st)
     ∧ this (snd r) = this st)
  ∧ (getBoundingClientRect (video_element w v) = None →
     r = (false,
          {| this := this st;
             page := with_console
               (console (page st) ++ ["Error updating subtitle position:"])
               (page st) |})
     ∧ dom (page (snd r)) !! host = Some e).
Proof.
  intros Hh Hv Hs He r. subst r. unfold updateSubtitlePosition. eff.
  rewrite Hh, Hv, Hs. split.
  - intros videoRect ->. simpl. split; [done|]. split; [|done].
    eexists. rewrite !lookup_alter_eq, He. simpl. split; [done|].
    unfold set_style. simpl. split.
    + rewrite get_set_property_ne by done. apply get_set_property_eq.
    + apply get_set_property_eq.
  - intros ->. simpl. done.
Qed.

Lemma updateSubtitlePosition_spec_witness :
  (fst (updateSubtitlePosition sample_browser sample_running) = true
   ∧ (∃ e', dom (page (snd (updateSubtitlePosition sample_browser sample_running))) !! 4
             = Some e'
        ∧ get_property "top" (el_style e') = Some (CssPx (300 -. 60 +. 5))
        ∧ get_property "left" (el_style e') = Some (CssPx (10 +. 100 /. 2)))
   ∧ console (page (snd (updateSubtitlePosition sample_browser sample_running)))
     = console (page sample_running)
   ∧ this (snd (updateSubtitlePosition sample_browser sample_running))
     = this sample_running)
  ∧ (updateSubtitlePosition sample_no_geometry sample_running
     = (false,
        {| this := this sample_running;
           page := with_console
             (console (page sample_running) ++ ["Error updating subtitle position:"])
             (page sample_running) |})
     ∧ dom (page (snd (updateSubtitlePosition sample_no_geometry sample_running))) !! 4
       = Some (element_at (dom (page sample_running)) 4)).
Proof.
  split.
  - exact (proj1 (updateSubtitlePosition_spec sample_browser sample_running 4 3
      defaultSettings (element_at (dom (page sample_running)) 4)
      eq_refl eq_refl eq_refl ltac:(vm_compute; reflexivity))
      {| rect_left := 10; rect_width := 100; rect_bottom := 300 |} eq_refl).
  - exact (proj2 (updateSubtitlePosition_spec sample_no_geometry sample_running 4 3
      defaultSettings (element_at (dom (page sample_running)) 4)
      eq_refl eq_refl eq_refl ltac:(vm_compute; reflexivity)) eq_refl).
Defined.

(** ** What the updates leave alone *)

Lemma lookup_alter_obs {B} (obs : Element → B) (f : Element → Element)
    (i : node) (d : gmap nat Element) (n : node) :
  (∀ e, obs (f e) = obs e) →
  obs <$> (alter f i d !! n) = obs <$> (d !! n).
Proof.
  intros Hf. rewrite lookup_alter. case_decide as Hi; [|done].
  subst i. destruct (d !! n); simpl; [|done]. by rewrite Hf.
Qed.

Lemma applyStyles_obs {B} (obs : Element → B) (st : State) (n : node) :
  (∀ c e, obs (set_cssText c e) = obs e) →
  obs <$> (dom (page (snd (applyStyles st))) !! n) = obs <$> (dom (page st) !! n).
Proof.
  intros Hc. unfold applyStyles. eff.
  destruct (subtitleElement (this st)) as [el|]; [|done].
  destruct (settings (this st)) as [s|]; [|done].
  simpl. by apply lookup_alter_obs.
Qed.

Lemma updateSubtitlePosition_obs {B} (obs : Element → B) (w : Browser)
    (st : State) (n : node) :
  (∀ v e, obs (set_style "top" v e) = obs e) →
  (∀ v e, obs (set_style "left" v e) = obs e) →
  obs <$> (dom (page (snd (updateSubtitlePosition w st))) !! n)
  = obs <$> (dom (page st) !! n).
Proof.
  intros Ht Hl. unfold updateSubtitlePosition. eff.
  destruct (shadowHost (this st)) as [host|]; [|done].
  destruct (video (this st)) as [v|]; [|done].
  destruct (settings (this st)) as [s|]; [|done].
  destruct (getBoundingClientRect _); simpl; [|done].
  by rewrite !lookup_alter_obs.
Qed.

Lemma updateSubtitleContent_obs {B} (obs : Element → B) (w : Browser)
    (st : State) (n : node) :
  (∀ v e, obs (set_style "display" v e) = obs e) →
  (∀ t e, obs (set_textContent t e) = obs e) →
  obs <$> (dom (page (snd (updateSubtitleContent w st))) !! n)
  = obs <$> (dom (page st) !! n).
Proof.
  intros Hd Ht. unfold updateSubtitleContent. eff.
  destruct (subtitleElement (this st)) as [el|]; [|done].
  destruct (video (this st)) as [v|]; [|done].
  rewrite timeOffset_total.
  destruct (find _ _); simpl; by rewrite !lookup_alter_obs.
Qed.

Lemma applyStyles_this st : this (snd (applyStyles st)) = this st.
Proof.
  unfold applyStyles. eff.
  destruct (subtitleElement (this st)); [|done].
  by destruct (settings (this st)).
Qed.

Lemma updateSubtitlePosition_this w st :
  this (snd (updateSubtitlePosition w st)) = this st.
Proof.
  unfold updateSubtitlePosition. eff.
  destruct (shadowHost (this st)); [|done].
  destruct (video (this st)); [|done].
  destruct (settings (this st)); [|done].
  by destruct (getBoundingClientRect _).
Qed.

Lemma updateSubtitleContent_this w st :
  this (snd (updateSubtitleContent w st)) = this st.
Proof.
  unfold updateSubtitleContent. eff.
  destruct (subtitleElement (this st)); [|done].
  destruct (video (this st)); [|done].
  rewrite timeOffset_total. by destruct (find _ _).
Qed.

(** ** Style application *)

Lemma applyStyles_run st el s :
  subtitleElement (this st) = Some el →
  settings (this st) = Some s →
  applyStyles st =
    (tt, {| this := this st;
            page := with_dom (alter (set_cssText (subtitle_cssText s)) el
                                (dom (page st))) (page st) |}).
Proof. intros Hel Hs. unfold applyStyles. eff. by rewrite Hel, Hs. Qed.

(** The state [updateSettings] reaches when a content node exists. *)
Lemma updateSettings_run w s st el :
  subtitleElement (this st) = Some el →
  snd (updateSettings w s st) =
    snd (updateSubtitleContent w
      (snd (updateSubtitlePosition w
        (snd (applyStyles
          {| this := with_settings (Some s) (this st); page := page st |}))))).
Proof.
  intros Hel. unfold updateSettings. eff. rewrite Hel.
  destruct (applyStyles _) as [[] st1]. simpl.
  destruct (updateSubtitlePosition w st1) as [b st2]. simpl.
  by destruct (updateSubtitleContent w st2) as [b' st3].
Qed.

(** C8: the presentation is a function of the settings alone.  The block
    [applyStyles] writes is [subtitle_cssText s], whatever the state; in it,
    and still after [updateSettings s], the background is the configured
    colour when the toggle is on and transparent when it is off, and the
    text shadow is the fixed-offset shadow in the configured colour when
    enabled and none otherwise. *)
Theorem applyStyles_derived
    (w : Browser) (st : State) (s : SubtitleSettings) (el : node) (e : Element) :
  subtitleElement (this st) = Some el →
  dom (page st) !! el = Some e →
  let shown_background :=
    CssText (if background s then backgroundColor s else "transparent") in
  let shown_shadow :=
    CssText (if textShadow s then "2px 2px 4px " ++ shadowColor s else "none") in
  (settings (this st) = Some s →
     ∃ e', dom (page (snd (applyStyles st))) !! el = Some e'
        ∧ el_style e' = subtitle_cssText s)
  ∧ get_property "background-color" (subtitle_cssText s) = Some shown_background
  ∧ get_property "text-shadow" (subtitle_cssText s) = Some shown_shadow
  ∧ (let st' := snd (updateSettings w s st) in
     settings (this st') = Some s
     ∧ ∃ e', dom (page st') !! el = Some e'
        ∧ get_property "background-color" (el_style e') = Some shown_background
        ∧ get_property "text-shadow" (el_style e') = Some shown_shadow)
  ∧ (background s = false → shown_background = CssText "transparent")
  ∧ (textShadow s = false → shown_shadow = CssText "none")
  ∧ (shown_shadow = CssText ("2px 2px 4px " ++ shadowColor s) ↔ textShadow s = true)
  ∧ (backgroundColor s ≠ "transparent" →
     (shown_background = CssText (backgroundColor s) ↔ background s = true)).
Proof.
  intros Hel He bg sh.
  split; [|split; [|split; [|split; [|split; [|split; [|split]]]]]].
  - intros Hs. rewrite (applyStyles_run st el s Hel Hs). simpl.
    eexists. by rewrite lookup_alter_eq, He.
  - reflexivity.
  - reflexivity.
  - intros st'. subst st'. rewrite (updateSettings_run w s st el Hel).
    set (st0 := {| this := with_settings (Some s) (this st); page := page st |}).
    split.
    + by rewrite updateSubtitleContent_this, updateSubtitlePosition_this,
        applyStyles_this.
    + assert (Hst0 : dom (page (snd (applyStyles st0))) !! el
                     = Some (set_cssText (subtitle_cssText s) e)).
      { rewrite (applyStyles_run st0 el s); [|done|done]. simpl.
        by rewrite lookup_alter_eq, He. }
      pose proof (λ k H1 H2 H3, eq_trans
        (updateSubtitleContent_obs (λ x, get_property k (el_style x)) w
           (snd (updateSubtitlePosition w (snd (applyStyles st0)))) el H1
           (λ _ _, eq_refl))
        (updateSubtitlePosition_obs (λ x, get_property k (el_style x)) w
           (snd (applyStyles st0)) el H2 H3)) as Hobs.
      rewrite Hst0 in Hobs.
      destruct (dom (page (snd (updateSubtitleContent w _))) !! el) as [e'|] eqn:E.
      * exists e'. split; [done|]. split.
        -- specialize (Hobs "background-color"). simpl in Hobs.
           assert (Some (get_property "background-color" (el_style e'))
                   = Some (Some bg)) as [= ->]; [|done].
           apply Hobs; intros v x; unfold set_style; simpl;
             by apply get_set_property_ne.
        -- specialize (Hobs "text-shadow"). simpl in Hobs.
           assert (Some (get_property "text-shadow" (el_style e'))
                   = Some (Some sh)) as [= ->]; [|done].
           apply Hobs; intros v x; unfold set_style; simpl;
             by apply get_set_property_ne.
      * specialize (Hobs "text-shadow"). simpl in Hobs. exfalso.
        assert (@None (option css_value) = Some (Some sh)) as Habs; [|done].
        apply Hobs; intros v x; unfold set_style; simpl;
          by apply get_set_property_ne.
  - unfold bg. by intros ->.
  - unfold sh. by intros ->.
  - unfold sh. destruct (textShadow s); split; done.
  - intros Hne. unfold bg. destruct (background s); split; try done.
    intros [= Heq]. by destruct Hne.
Qed.

Lemma applyStyles_derived_witness :
  let st' := snd (updateSettings sample_browser sample_settings sample_running) in
  settings (this st') = Some sample_settings
  ∧ ∃ e', dom (page st') !! 6 = Some e'
     ∧ get_property "background-color" (el_style e') = Some (CssText "transparent")
     ∧ get_property "text-shadow" (el_style e') = Some (CssText "none").
Proof.
  exact (proj1 (proj2 (proj2 (proj2 (applyStyles_derived sample_browser
    sample_running sample_settings 6 (element_at (dom (page sample_running)) 6)
    eq_refl ltac:(vm_compute; reflexivity)))))).
Defined.

(** ** Settings load failure *)

(** C9: when the storage read throws, [loadSettings] logs the error and
    leaves the settings as they were, and [init] goes on: with a video
    found it returns true, settings still unset, listeners attached and
    the document untouched.  While the settings are unset, building the
    surface, applying styles and updating the position change nothing;
    [updateSettings] sets them. *)
Theorem settings_load_failure
    (w : Browser) (target : VideoTarget) (subs : list Subtitle) (st : State) :
  storage_get w = StorageThrows →
  loadSettings w st
    = (tt, {| this := this st;
              page := with_console
                (console (page st) ++ ["Error loading subtitle settings:"])
                (page st) |})
  ∧ (settings (this st) = None →
     ∀ v, findTargetVideo w target = Some v →
       let r := init w target subs st in
       fst r = true
       ∧ settings (this (snd r)) = None
       ∧ video (this (snd r)) = Some v
       ∧ subtitles (this (snd r)) = subs
       ∧ shadowHost (this (snd r)) = shadowHost (this st)
       ∧ dom (page (snd r)) = dom (page st)
       ∧ next_node (page (snd r)) = next_node (page st)
       ∧ console (page (snd r))
         = (console (page st) ++ ["Error loading subtitle settings:"])%list
       ∧ length (listeners (page (snd r))) = length (listeners (page st)) + 8)
  ∧ (∀ st', settings (this st') = None →
       addSubtitleElement w st' = (false, st')
       ∧ applyStyles st' = (tt, st')
       ∧ updateSubtitlePosition w st' = (false, st'))
  ∧ (∀ st' s, settings (this (snd (updateSettings w s st'))) = Some s).
Proof.
  intros Hthrow. split; [|split; [|split]].
  - unfold loadSettings. by rewrite Hthrow.
  - intros Hnone v Hv r. subst r. destruct st as [m p]. destruct m, p.
    simpl in Hnone. subst. unfold init, loadSettings. rewrite Hthrow.
    eff. rewrite Hv. unfold addSubtitleElement. eff.
    unfold attachEventListeners, addEventListener, observe. eff.
    repeat split; try done. rewrite !length_app. simpl. lia.
  - intros [m p] Hnone. simpl in Hnone.
    unfold addSubtitleElement, applyStyles, updateSubtitlePosition. eff.
    rewrite Hnone.
    destruct (video m), (subtitleElement m), (shadowHost m); done.
  - intros st' s. unfold updateSettings. eff.
    destruct (subtitleElement (this st')) as [el|]; [|done].
    destruct (applyStyles _) as [[] st1] eqn:E1.
    destruct (updateSubtitlePosition w st1) as [b st2] eqn:E2.
    destruct (updateSubtitleContent w st2) as [b' st3] eqn:E3. simpl.
    change st3 with (snd (b', st3)). rewrite <- E3, updateSubtitleContent_this.
    change st2 with (snd (b, st2)). rewrite <- E2, updateSubtitlePosition_this.
    change st1 with (snd (tt, st1)). by rewrite <- E1, applyStyles_this.
Qed.

Lemma settings_load_failure_witness :
  let r := init sample_storage_failure (sample_target (Some 0%float) None)
             [Hi; Bye] sample_state in
  fst r = true
  ∧ settings (this (snd r)) = None
  ∧ video (this (snd r)) = Some 1
  ∧ subtitles (this (snd r)) = [Hi; Bye]
  ∧ shadowHost (this (snd r)) = shadowHost (this sample_state)
  ∧ dom (page (snd r)) = dom (page sample_state)
  ∧ next_node (page (snd r)) = next_node (page sample_state)
  ∧ console (page (snd r))
    = (console (page sample_state) ++ ["Error loading subtitle settings:"])%list
  ∧ length (listeners (page (snd r))) = length (listeners (page sample_state)) + 8.
Proof.
  exact (proj1 (proj2 (settings_load_failure sample_storage_failure
    (sample_target (Some 0%float) None) [Hi; Bye] sample_state eq_refl)) eq_refl 1
    ltac:(vm_compute; reflexivity)).
Defined.

(** ** The document tree *)

Lemma lookup_fmap_obs {B} (obs : Element → B) (f : Element → Element)
    (d : gmap nat Element) (n : node) :
  (∀ e, obs (f e) = obs e) →
  obs <$> ((f <$> d) !! n) = obs <$> (d !! n).
Proof.
  intros Hf. rewrite lookup_fmap. destruct (d !! n); simpl; [|done].
  by rewrite Hf.
Qed.

Lemma obs_is_Some {B} (obs : Element → B) (d d' : gmap nat Element) (n : node) :
  obs <$> (d' !! n) = obs <$> (d !! n) →
  is_Some (d' !! n) ↔ is_Some (d !! n).
Proof.
  destruct (d' !! n), (d !! n); simpl; intros H; try done.
  all: split; intros [? ?]; done.
Qed.

Lemma is_parent_same (d d' : gmap nat Element) (p m : node) :
  el_children <$> (d' !! p) = el_children <$> (d !! p) →
  is_parent d' p m ↔ is_parent d p m.
Proof.
  unfold is_parent.
  destruct (d' !! p) as [e'|], (d !! p) as [e|]; simpl; intros H; try done.
  injection H as Hch.
  split; intros (x & [= <-] & Hx); eexists; (split; [done|]); congruence.
Qed.

Lemma is_mount_same (d d' : gmap nat Element) (n : node) :
  el_id <$> (d' !! n) = el_id <$> (d !! n) →
  is_mount d' n ↔ is_mount d n.
Proof.
  unfold is_mount.
  destruct (d' !! n) as [e'|], (d !! n) as [e|]; simpl; intros H; try done.
  injection H as Hid.
  split; intros (x & [= <-] & Hx); eexists; (split; [done|]); congruence.
Qed.

Lemma is_parent_remove (d : gmap nat Element) (n p m : node) :
  is_parent (dom_remove n d) p m ↔ is_parent d p m ∧ m ≠ n.
Proof.
  unfold is_parent, dom_remove. rewrite lookup_fmap. split.
  - intros (e' & He' & Hm). destruct (d !! p) as [e|]; simpl in He'; [|done].
    injection He' as <-. simpl in Hm. apply list_elem_of_filter in Hm as [Hne Hm].
    split; [by exists e|done].
  - intros [(e & He & Hm) Hne]. rewrite He. simpl. eexists. split; [done|].
    simpl. by apply list_elem_of_filter.
Qed.

Lemma is_mount_remove (d : gmap nat Element) (n m : node) :
  is_mount (dom_remove n d) m ↔ is_mount d m.
Proof.
  apply is_mount_same. unfold dom_remove. by apply lookup_fmap_obs.
Qed.

Lemma is_parent_push (d : gmap nat Element) (c n p m : node) :
  is_parent (alter (push_child n) c d) p m
  ↔ is_parent d p m ∨ (p = c ∧ m = n ∧ is_Some (d !! c)).
Proof.
  unfold is_parent. rewrite lookup_alter. case_decide as Hc.
  - subst p. destruct (d !! c) as [e|]; simpl.
    + split.
      * intros (e' & [= <-] & Hm). simpl in Hm.
        apply elem_of_app in Hm as [Hm|Hm].
        -- left. by exists e.
        -- right. apply list_elem_of_singleton in Hm. by eauto.
      * intros [(e' & [= <-] & Hm)|(_ & -> & _)]; eexists; (split; [done|]);
          simpl; apply elem_of_app; [by left|right]. by apply list_elem_of_singleton.
    + split; [by intros (? & [=] & _)|].
      intros [(? & [=] & _)|(_ & _ & [? [=]])].
  - split; [by left|]. intros [H|(-> & _)]; done.
Qed.

Lemma is_Some_remove (d : gmap nat Element) (n c : node) :
  is_Some (dom_remove n d !! c) ↔ is_Some (d !! c).
Proof.
  apply (obs_is_Some (λ _, tt)). unfold dom_remove. by apply lookup_fmap_obs.
Qed.

Lemma is_parent_appendChild (d : gmap nat Element) (c n p m : node) :
  is_parent (dom_appendChild c n d) p m
  ↔ (is_parent d p m ∧ m ≠ n) ∨ (p = c ∧ m = n ∧ is_Some (d !! c)).
Proof.
  unfold dom_appendChild. by rewrite is_parent_push, is_parent_remove, is_Some_remove.
Qed.

Lemma appendChild_obs {B} (obs : Element → B) (c n : node)
    (d : gmap nat Element) (m : node) :
  (∀ x e, obs (drop_child x e) = obs e) →
  (∀ x e, obs (push_child x e) = obs e) →
  obs <$> (dom_appendChild c n d !! m) = obs <$> (d !! m).
Proof.
  intros Hd Hp. unfold dom_appendChild, dom_remove.
  rewrite lookup_alter_obs by done. by apply lookup_fmap_obs.
Qed.

(** After [c.appendChild(n)] into an existing element, [c] is the only
    parent of [n], and [n] is its last child, listed once. *)
Lemma appendChild_one_parent (d : gmap nat Element) (c n : node) :
  is_Some (d !! c) →
  (∀ p, is_parent (dom_appendChild c n d) p n ↔ p = c)
  ∧ ∃ e l, dom_appendChild c n d !! c = Some e
         ∧ el_children e = (l ++ [n])%list ∧ n ∉ l.
Proof.
  intros Hc. split.
  - intros p. rewrite is_parent_appendChild. split.
    + by intros [[_ ?]|(-> & _)].
    + intros ->. by right.
  - destruct Hc as [e He]. unfold dom_appendChild, dom_remove.
    rewrite lookup_alter_eq, lookup_fmap, He. simpl.
    eexists _, _. split; [done|]. split; [done|].
    intros Hin. by apply list_elem_of_filter in Hin as [? _].
Qed.

(** ** Fullscreen re-parenting *)

Lemma appendSubtitleElement_run w st host :
  shadowHost (this st) = Some host →
  appendSubtitleElement w st =
    (tt, {| this := with_isFullscreen
                      (bool_decide (is_Some (fullscreenElement w))) (this st);
            page := with_dom
                      (dom_appendChild (overlay_container w) host (dom (page st)))
                      (page st) |}).
Proof.
  intros Hh. destruct st as [m p]. simpl in Hh.
  unfold appendSubtitleElement, overlay_container. eff. rewrite Hh. simpl.
  by destruct (fullscreenElement w).
Qed.

Lemma with_isFullscreen_same m : with_isFullscreen (isFullscreen m) m = m.
Proof. by destruct m. Qed.

Lemma eqb_ne (a b : bool) : a ≠ b → negb (Bool.eqb a b) = true.
Proof. by destruct a, b. Qed.

(** C7: on a fullscreen-change notification the flag is recomputed.  When
    it equals the recorded one nothing changes.  When it differs and a mount
    node exists, the node is removed from its parent, appended to the
    fullscreen element if there is one and to the body otherwise, and the
    position is recomputed; the node then has that container as its only
    parent and is listed once among its children. *)
Theorem handleFullscreenChange_spec (w : Browser) (st : State) :
  let now := bool_decide (is_Some (fullscreenElement w)) in
  let container := overlay_container w in
  let st' := snd (handleFullscreenChange w st) in
  isFullscreen (this st') = now
  ∧ (isFullscreen (this st) = now → st' = st)
  ∧ (isFullscreen (this st) ≠ now → shadowHost (this st) = None →
     this st' = with_isFullscreen now (this st) ∧ page st' = page st)
  ∧ (isFullscreen (this st) ≠ now →
     ∀ host, shadowHost (this st) = Some host →
       st' = snd (updateSubtitlePosition w
               {| this := with_isFullscreen now (this st);
                  page := with_dom
                    (dom_appendChild container host
                       (dom_remove host (dom (page st)))) (page st) |})
       ∧ (is_Some (dom (page st) !! container) →
          (∀ p, is_parent (dom (page st')) p host ↔ p = container)
          ∧ ∃ e l, dom (page st') !! container = Some e
                 ∧ el_children e = (l ++ [host])%list ∧ host ∉ l)).
Proof.
  intros now container st'.
  assert (Hrun : isFullscreen (this st) ≠ now →
     ∀ host, shadowHost (this st) = Some host →
       st' = snd (updateSubtitlePosition w
               {| this := with_isFullscreen now (this st);
                  page := with_dom
                    (dom_appendChild container host
                       (dom_remove host (dom (page st)))) (page st) |})).
  { intros Hne host Hh. subst st'. destruct st as [m p]. simpl in *.
    unfold handleFullscreenChange. eff. fold now.
    rewrite (eqb_ne _ _ Hne), Hh.
    rewrite (appendSubtitleElement_run w _ host) by (simpl; by rewrite Hh).
    simpl. fold now. fold container.
    destruct m, p. simpl.
    by destruct (updateSubtitlePosition w _). }
  split; [|split; [|split]].
  - destruct (decide (isFullscreen (this st) = now)) as [Heq|Hne].
    + subst st'. unfold handleFullscreenChange. eff. fold now.
      rewrite Heq, Bool.eqb_reflx. done.
    + destruct (shadowHost (this st)) as [host|] eqn:Hh.
      * rewrite (Hrun Hne host eq_refl), updateSubtitlePosition_this. done.
      * subst st'. unfold handleFullscreenChange. eff. fold now.
        by rewrite (eqb_ne _ _ Hne), Hh.
  - intros Heq. subst st'. unfold handleFullscreenChange. eff. fold now.
    rewrite Heq, Bool.eqb_reflx. simpl. rewrite <- Heq, with_isFullscreen_same.
    by destruct st.
  - intros Hne Hh. subst st'. unfold handleFullscreenChange. eff. fold now.
    by rewrite (eqb_ne _ _ Hne), Hh.
  - intros Hne host Hh. split; [by apply Hrun|]. intros Hc.
    rewrite (Hrun Hne host Hh).
    set (moved := dom_appendChild container host (dom_remove host (dom (page st)))).
    destruct (appendChild_one_parent (dom_remove host (dom (page st))) container host)
      as [Hp (e & l & He & Hl & Hnl)]; [by apply is_Some_remove|].
    fold moved in Hp, He.
    pose proof (updateSubtitlePosition_obs el_children w
      {| this := with_isFullscreen now (this st);
         page := with_dom moved (page st) |}) as Hobs.
    simpl in Hobs. split.
    + intros p. rewrite <- Hp. apply is_parent_same. by apply Hobs.
    + specialize (Hobs container (λ _ _, eq_refl) (λ _ _, eq_refl)).
      rewrite He in Hobs. simpl in Hobs.
      destruct (dom (page (snd (updateSubtitlePosition w _))) !! container)
        as [e'|]; [|done].
      injection Hobs as Hobs. exists e', l. by rewrite Hobs.
Qed.

Lemma handleFullscreenChange_spec_witness :
  ((∀ p, is_parent (dom (page (snd (handleFullscreenChange sample_fullscreen
                                      sample_running)))) p 4
         ↔ p = 3)
   ∧ ∃ e l, dom (page (snd (handleFullscreenChange sample_fullscreen
                              sample_running))) !! 3 = Some e
          ∧ el_children e = (l ++ [4])%list ∧ 4 ∉ l)
  ∧ ((∀ p, is_parent (dom (page (snd (handleFullscreenChange sample_browser
                                       sample_entered)))) p 4
          ↔ p = 0)
     ∧ ∃ e l, dom (page (snd (handleFullscreenChange sample_browser
                                sample_entered))) !! 0 = Some e
            ∧ el_children e = (l ++ [4])%list ∧ 4 ∉ l).
Proof.
  split.
  - apply (proj2 (proj2 (proj2 (handleFullscreenChange_spec sample_fullscreen
             sample_running))) ltac:(vm_compute; discriminate) 4
             ltac:(vm_compute; reflexivity)).
    vm_compute. eauto.
  - apply (proj2 (proj2 (proj2 (handleFullscreenChange_spec sample_browser
             sample_entered))) ltac:(vm_compute; discriminate) 4
             ltac:(vm_compute; reflexivity)).
    vm_compute. eauto.
Defined.

(** ** Building and tearing down the render surface *)

Lemma bind_run {A B} (c : Eff A) (k : A → Eff B) (st : State) :
  bind c k st = k (fst (c st)) (snd (c st)).
Proof. unfold bind. by destruct (c st). Qed.

Lemma removeSubtitleElement_run st :
  removeSubtitleElement st = (tt, torn_down st).
Proof.
  destruct st as [m p]. destruct m, p. unfold removeSubtitleElement, torn_down.
  eff. by destruct shadowHost0.
Qed.

Ltac run_eff :=
  cbv beta iota zeta delta
    [bind ret get_this update_this update_page update_dom update_element
     createElement attachShadow console_error addEventListener observe
     fst snd this page dom next_node listeners observed console
     subtitles video subtitleElement shadowHost shadowRoot resizeObserver
     scrollHandler fullscreenHandler isFullscreen settings
     with_subtitles with_video with_subtitleElement with_shadowHost
     with_shadowRoot with_resizeObserver with_scrollHandler
     with_fullscreenHandler with_isFullscreen with_settings
     with_dom with_next_node with_listeners with_observed with_console].

Lemma addSubtitleElement_run w st v s :
  video (this st) = Some v →
  settings (this st) = Some s →
  addSubtitleElement w st = (true, built w st).
Proof.
  intros Hv Hs. unfold addSubtitleElement.
  rewrite bind_run. simpl. rewrite Hv, Hs.
  rewrite bind_run, removeSubtitleElement_run. simpl.
  unfold built, styled.
  set (st0 := torn_down st).
  assert (Hn : next_node (page st0) = next_node (page st)) by (by destruct st as [? []]).
  rewrite <- Hn. clearbody st0. clear.
  destruct st0 as [m p]. destruct m, p.
  unfold prepared. rewrite !bind_run. run_eff. reflexivity.
Qed.

Lemma torn_down_this st :
  this (torn_down st)
  = with_subtitleElement None (with_shadowRoot None (with_shadowHost None (this st))).
Proof. done. Qed.

Lemma torn_down_next st : next_node (page (torn_down st)) = next_node (page st).
Proof. by destruct st as [? []]. Qed.

Lemma torn_down_mount st n :
  is_mount (dom (page (torn_down st))) n ↔ is_mount (dom (page st)) n.
Proof.
  unfold torn_down. destruct st as [m []]. simpl.
  destruct (shadowHost m); [apply is_mount_remove|done].
Qed.

Lemma torn_down_parent st p m :
  is_parent (dom (page (torn_down st))) p m
  ↔ is_parent (dom (page st)) p m ∧ shadowHost (this st) ≠ Some m.
Proof.
  unfold torn_down. destruct st as [mg []]. simpl.
  destruct (shadowHost mg) as [host|].
  - rewrite is_parent_remove. split; intros [? ?]; (split; [done|]); congruence.
  - split; [by intros ?|by intros [? _]].
Qed.

Lemma torn_down_is_Some st n :
  is_Some (dom (page (torn_down st)) !! n) ↔ is_Some (dom (page st) !! n).
Proof.
  unfold torn_down. destruct st as [m []]. simpl.
  destruct (shadowHost m); [apply is_Some_remove|done].
Qed.

Lemma prepared_lookup st n :
  dom (page (prepared st)) !! n =
    if decide (n = S (S (next_node (page st)))) then
      Some (set_id "subtitle-element" new_element)
    else if decide (n = S (next_node (page st))) then Some new_element
    else if decide (n = next_node (page st)) then
      Some (set_shadowRoot (S (next_node (page st)))
              (set_cssText host_cssText (set_id "subtitle-shadow-host" new_element)))
    else dom (page st) !! n.
Proof.
  unfold prepared. destruct st as [m []]. simpl.
  repeat case_decide; subst;
    repeat first
      [ rewrite lookup_alter_eq | rewrite lookup_insert_eq
      | rewrite lookup_alter_ne by lia | rewrite lookup_insert_ne by lia ];
    done.
Qed.

Lemma styled_this w st : this (styled w st) = this st.
Proof.
  unfold styled.
  by rewrite updateSubtitleContent_this, updateSubtitlePosition_this,
    applyStyles_this.
Qed.

Lemma styled_obs {B} (obs : Element → B) w st n :
  (∀ c e, obs (set_cssText c e) = obs e) →
  (∀ k v e, obs (set_style k v e) = obs e) →
  (∀ t e, obs (set_textContent t e) = obs e) →
  obs <$> (dom (page (styled w st)) !! n) = obs <$> (dom (page st) !! n).
Proof.
  intros Hc Hs Ht. unfold styled.
  rewrite updateSubtitleContent_obs, updateSubtitlePosition_obs by done.
  by apply applyStyles_obs.
Qed.

Lemma built_run w st :
  built w st =
    {| this := with_isFullscreen (bool_decide (is_Some (fullscreenElement w)))
                 (this (prepared (torn_down st)));
       page := with_dom
         (dom_appendChild (overlay_container w) (next_node (page st))
            (dom_appendChild (S (next_node (page st))) (S (S (next_node (page st))))
               (dom (page (styled w (prepared (torn_down st)))))))
         (page (styled w (prepared (torn_down st)))) |}.
Proof.
  unfold built. set (st3 := styled w (prepared (torn_down st))).
  assert (Hh : shadowHost (this st3) = Some (next_node (page st))).
  { unfold st3. rewrite styled_this. simpl. by destruct st as [? []]. }
  rewrite <- (styled_this w (prepared (torn_down st))). fold st3.
  clearbody st3. destruct st3 as [m3 []].
  by rewrite (appendSubtitleElement_run w _ (next_node (page st))).
Qed.

Lemma built_obs {B} (obs : Element → B) w st n :
  (∀ c e, obs (set_cssText c e) = obs e) →
  (∀ k v e, obs (set_style k v e) = obs e) →
  (∀ t e, obs (set_textContent t e) = obs e) →
  (∀ x e, obs (drop_child x e) = obs e) →
  (∀ x e, obs (push_child x e) = obs e) →
  obs <$> (dom (page (built w st)) !! n)
  = obs <$> (dom (page (prepared (torn_down st))) !! n).
Proof.
  intros Hc Hs Ht Hd Hp. rewrite built_run. cbn [page dom with_dom].
  rewrite !appendChild_obs by done. by apply styled_obs.
Qed.

Lemma built_mount w st n :
  is_mount (dom (page (built w st))) n →
  n = next_node (page st)
  ∨ (n ≠ S (S (next_node (page st))) ∧ is_mount (dom (page st)) n).
Proof.
  intros Hm. apply (is_mount_same (dom (page (prepared (torn_down st))))) in Hm.
  2: { by apply built_obs. }
  destruct Hm as (e & He & Hid). rewrite prepared_lookup, torn_down_next in He.
  repeat case_decide.
  - by injection He as <-.
  - by injection He as <-.
  - by left.
  - right. split; [done|]. apply torn_down_mount. by exists e.
Qed.

Lemma built_is_mount w st :
  is_mount (dom (page (built w st))) (next_node (page st)).
Proof.
  apply (is_mount_same (dom (page (prepared (torn_down st))))).
  { by apply built_obs. }
  eexists. rewrite prepared_lookup, torn_down_next.
  repeat case_decide; try lia. done.
Qed.

Lemma prepared_parent st p m :
  is_parent (dom (page (prepared st))) p m → is_parent (dom (page st)) p m.
Proof.
  intros (e & He & Hm). rewrite prepared_lookup in He. repeat case_decide.
  - injection He as <-. by apply elem_of_nil in Hm.
  - injection He as <-. by apply elem_of_nil in Hm.
  - injection He as <-. by apply elem_of_nil in Hm.
  - by exists e.
Qed.

Lemma built_parent w st p m :
  is_parent (dom (page (built w st))) p m →
  m = next_node (page st) ∨ m = S (S (next_node (page st)))
  ∨ (is_parent (dom (page st)) p m ∧ shadowHost (this st) ≠ Some m).
Proof.
  rewrite built_run. cbn [page dom with_dom]. rewrite !is_parent_appendChild.
  intros [[[[Hp _]|(_ & -> & _)] _]|(_ & -> & _)]; [|by auto|by auto].
  right. right. apply torn_down_parent, prepared_parent.
  apply (is_parent_same (dom (page (prepared (torn_down st))))) in Hp; [done|].
  by apply styled_obs.
Qed.

(** After a build the only attached surface is the new one. *)
Lemma built_owns w st n :
  owns_surfaces st →
  surface_attached (dom (page (built w st))) n →
  n = next_node (page st).
Proof.
  intros Hown [Hm [p Hp]].
  apply built_mount in Hm as [->|[Hel Hm]]; [done|].
  apply built_parent in Hp as [->|[->|[Hp Hne]]]; [done|done|].
  exfalso. apply Hne, Hown. split; [done|by exists p].
Qed.

Lemma prepared_is_Some st n :
  is_Some (dom (page st) !! n) → is_Some (dom (page (prepared st)) !! n).
Proof. rewrite prepared_lookup. repeat case_decide; eauto. Qed.


(** The new mount node hangs under the container and nowhere else. *)
Lemma built_attached w st :
  is_Some (dom (page st) !! overlay_container w) →
  ∀ p, is_parent (dom (page (built w st))) p (next_node (page st))
       ↔ p = overlay_container w.
Proof.
  intros Hc. rewrite built_run. cbn [page dom with_dom].
  apply appendChild_one_parent.
  apply (obs_is_Some (λ _, tt) (dom (page (prepared (torn_down st))))).
  - rewrite appendChild_obs by done. by apply styled_obs.
  - by apply prepared_is_Some, torn_down_is_Some.
Qed.



(** ** [init], step by step *)

Lemma attachEventListeners_frame st :
  let st' := snd (attachEventListeners st) in
  dom (page st') = dom (page st)
  ∧ subtitles (this st') = subtitles (this st)
  ∧ video (this st') = video (this st)
  ∧ subtitleElement (this st') = subtitleElement (this st)
  ∧ shadowHost (this st') = shadowHost (this st)
  ∧ shadowRoot (this st') = shadowRoot (this st)
  ∧ settings (this st') = settings (this st).
Proof.
  destruct st as [[] []]. unfold attachEventListeners. run_eff.
  destruct video0; run_eff; done.
Qed.

Lemma addSubtitleElement_unset w st :
  settings (this st) = None → addSubtitleElement w st = (false, st).
Proof.
  intros Hs. unfold addSubtitleElement. rewrite bind_run. simpl. rewrite Hs.
  by destruct (video (this st)).
Qed.

Lemma loaded_frame w target subs st :
  dom (page (loaded w target subs st)) = dom (page st)
  ∧ next_node (page (loaded w target subs st)) = next_node (page st)
  ∧ subtitles (this (loaded w target subs st)) = subs
  ∧ video (this (loaded w target subs st)) = findTargetVideo w target
  ∧ shadowHost (this (loaded w target subs st)) = shadowHost (this st)
  ∧ settings (this (loaded w target subs st))
    = settings_after_load w (settings (this st)).
Proof.
  destruct st as [[] []]. unfold loaded, loadSettings, settings_after_load.
  destruct (storage_get w); run_eff; done.
Qed.

Lemma init_run w target subs st :
  init w target subs st =
    match findTargetVideo w target with
    | None =>
        (false,
         {| this := this (loaded w target subs st);
            page := with_console
              (console (page (loaded w target subs st)) ++ ["Target video not found"])
              (page (loaded w target subs st)) |})
    | Some _ =>
        (true, snd (attachEventListeners
                      (snd (addSubtitleElement w (loaded w target subs st)))))
    end.
Proof.
  unfold init, loaded. rewrite !bind_run.
  destruct st as [[] []]. unfold loadSettings.
  destruct (storage_get w); run_eff;
    destruct (findTargetVideo w target); run_eff; try done.
  all: destruct (addSubtitleElement w _) as [? s1];
    by destruct (attachEventListeners s1).
Qed.

Lemma built_this_fields w st :
  shadowHost (this (built w st)) = Some (next_node (page st))
  ∧ shadowRoot (this (built w st)) = Some (S (next_node (page st)))
  ∧ subtitleElement (this (built w st)) = Some (S (S (next_node (page st))))
  ∧ video (this (built w st)) = video (this st)
  ∧ subtitles (this (built w st)) = subtitles (this st)
  ∧ settings (this (built w st)) = settings (this st).
Proof. rewrite built_run. by destruct st as [[] []]. Qed.

(** [init] when the video is found and settings are available: the
    surface is rebuilt. *)
Lemma init_built w target subs st v s :
  findTargetVideo w target = Some v →
  settings_after_load w (settings (this st)) = Some s →
  ∃ st', init w target subs st = (true, st')
    ∧ dom (page st') = dom (page (built w (loaded w target subs st)))
    ∧ shadowHost (this st') = Some (next_node (page st))
    ∧ shadowRoot (this st') = Some (S (next_node (page st)))
    ∧ subtitleElement (this st') = Some (S (S (next_node (page st))))
    ∧ video (this st') = Some v
    ∧ subtitles (this st') = subs
    ∧ settings (this st') = Some s.
Proof.
  intros Hv Hs. rewrite init_run, Hv.
  destruct (loaded_frame w target subs st) as (Hd & Hn & Hsub & Hvid & Hh & Hset).
  rewrite (addSubtitleElement_run w _ v s) by congruence.
  set (L := loaded w target subs st) in *.
  rewrite <- Hn, <- Hsub.
  replace (Some v) with (video (this L)) by congruence.
  replace (Some s) with (settings (this L)) by congruence.
  clearbody L.
  generalize (built_this_fields w L).
  change (snd (true, built w L)) with (built w L).
  generalize (built w L). intros B (Hb1 & Hb2 & Hb3 & Hb4 & Hb5 & Hb6).
  generalize (attachEventListeners_frame B).
  destruct (attachEventListeners B) as [b st']. cbn [fst snd].
  intros (Ha1 & Ha2 & Ha3 & Ha4 & Ha5 & Ha6 & Ha7).
  exists st'. split; [done|]. repeat split; congruence.
Qed.

(** [init] when the video is missing or no settings are available: the
    document and the surface fields stay as they were. *)
Lemma init_unbuilt w target subs st :
  findTargetVideo w target = None
  ∨ settings_after_load w (settings (this st)) = None →
  ∃ b st', init w target subs st = (b, st')
    ∧ dom (page st') = dom (page st)
    ∧ shadowHost (this st') = shadowHost (this st)
    ∧ settings (this st') = settings_after_load w (settings (this st)).
Proof.
  intros Hcase. rewrite init_run.
  destruct (loaded_frame w target subs st) as (Hd & Hn & Hsub & Hvid & Hh & Hset).
  destruct (findTargetVideo w target) as [v|] eqn:Hv.
  - destruct Hcase as [?|Hs]; [done|].
    rewrite addSubtitleElement_unset by congruence.
    set (L := loaded w target subs st) in *.
    rewrite <- Hd, <- Hh, <- Hset. clearbody L.
    change (snd (false, L)) with L.
    generalize (attachEventListeners_frame L).
    destruct (attachEventListeners L) as [b st']. cbn [fst snd].
    intros (Ha1 & Ha2 & Ha3 & Ha4 & Ha5 & Ha6 & Ha7).
    exists true, st'. split; [done|]. repeat split; congruence.
  - eexists _, _. split; [done|]. cbn [this page].
    rewrite <- Hd, <- Hh, <- Hset.
    by destruct (page (loaded w target subs st)).
Qed.

Lemma init_cases w (target : VideoTarget) st :
  (∃ v s, findTargetVideo w target = Some v
          ∧ settings_after_load w (settings (this st)) = Some s)
  ∨ (findTargetVideo w target = None
     ∨ settings_after_load w (settings (this st)) = None).
Proof.
  destruct (findTargetVideo w target) as [v|]; [|by auto].
  destruct (settings_after_load w (settings (this st))) as [s|]; [|by auto].
  left. by exists v, s.
Qed.

Lemma init_settings w target subs st :
  settings (this (snd (init w target subs st)))
  = settings_after_load w (settings (this st)).
Proof.
  destruct (init_cases w target st) as [(v & s & Hv & Hs)|Hcase].
  - destruct (init_built w target subs st v s Hv Hs)
      as (st' & -> & _ & _ & _ & _ & _ & _ & Hset). cbn [snd]. congruence.
  - destruct (init_unbuilt w target subs st Hcase) as (b & st' & -> & _ & _ & Hset).
    done.
Qed.

Lemma loaded_owns w target subs st :
  owns_surfaces st → owns_surfaces (loaded w target subs st).
Proof.
  destruct (loaded_frame w target subs st) as (Hd & _ & _ & _ & Hh & _).
  unfold owns_surfaces. rewrite Hd, Hh. done.
Qed.

(** [init] keeps the controller the owner of every attached surface. *)
Lemma init_owns w target subs st :
  owns_surfaces st → owns_surfaces (snd (init w target subs st)).
Proof.
  intros Hown.
  destruct (init_cases w target st) as [(v & s & Hv & Hs)|Hcase].
  - destruct (init_built w target subs st v s Hv Hs)
      as (st' & -> & Hd & Hh & _). cbn [snd].
    unfold owns_surfaces. rewrite Hd, Hh.
    intros n Hn. f_equal. symmetry.
    destruct (loaded_frame w target subs st) as (_ & <- & _).
    apply (built_owns w (loaded w target subs st)); [|done].
    by apply loaded_owns.
  - destruct (init_unbuilt w target subs st Hcase) as (b & st' & -> & Hd & Hh & _).
    cbn [snd]. unfold owns_surfaces. by rewrite Hd, Hh.
Qed.



Lemma sample_page_no_mount n : ¬ is_mount (dom sample_page) n.
Proof.
  intros (e & He & Hid).
  assert (Hall : map_Forall (λ _ x, el_id x ≠ "subtitle-shadow-host")
                   (dom sample_page)).
  { apply (bool_decide_unpack _). vm_compute. exact I. }
  by apply (Hall n e He).
Qed.

Lemma sample_state_owns : owns_surfaces sample_state.
Proof. intros n [Hm _]. by apply sample_page_no_mount in Hm. Qed.


(** * Further properties of the controller *)

(** ** What each handler leaves alone *)

Ltac split_matches :=
  repeat match goal with
         | |- context [match ?x with Some _ => _ | None => _ end] => destruct x
         end.

Lemma applyStyles_other st n :
  subtitleElement (this st) ≠ Some n →
  dom (page (snd (applyStyles st))) !! n = dom (page st) !! n.
Proof.
  intros Hn. unfold applyStyles. eff.
  destruct (subtitleElement (this st)) as [el|]; [|done].
  destruct (settings (this st)); [|done]. simpl.
  apply lookup_alter_ne. congruence.
Qed.

Lemma updateSubtitlePosition_other w st n :
  shadowHost (this st) ≠ Some n →
  dom (page (snd (updateSubtitlePosition w st))) !! n = dom (page st) !! n.
Proof.
  intros Hn. unfold updateSubtitlePosition. eff.
  destruct (shadowHost (this st)) as [host|]; [|done].
  destruct (video (this st)); [|done].
  destruct (settings (this st)); [|done].
  destruct (getBoundingClientRect _); simpl; [|done].
  rewrite !lookup_alter_ne by congruence. done.
Qed.

Lemma updateSubtitleContent_other w st n :
  subtitleElement (this st) ≠ Some n →
  dom (page (snd (updateSubtitleContent w st))) !! n = dom (page st) !! n.
Proof.
  intros Hn. unfold updateSubtitleContent. eff.
  destruct (subtitleElement (this st)) as [el|]; [|done].
  destruct (video (this st)); [|done].
  rewrite timeOffset_total.
  destruct (find _ _); simpl; rewrite !lookup_alter_ne by congruence; done.
Qed.

(** The handlers allocate no node and register nothing. *)
Lemma applyStyles_registry st :
  next_node (page (snd (applyStyles st))) = next_node (page st)
  ∧ listeners (page (snd (applyStyles st))) = listeners (page st)
  ∧ observed (page (snd (applyStyles st))) = observed (page st).
Proof.
  destruct st as [[] []]. unfold applyStyles. run_eff. split_matches. all: done.
Qed.

Lemma updateSubtitlePosition_registry w st :
  next_node (page (snd (updateSubtitlePosition w st))) = next_node (page st)
  ∧ listeners (page (snd (updateSubtitlePosition w st))) = listeners (page st)
  ∧ observed (page (snd (updateSubtitlePosition w st))) = observed (page st).
Proof.
  destruct st as [[] []]. unfold updateSubtitlePosition. run_eff.
  split_matches. all: done.
Qed.

Lemma updateSubtitleContent_registry w st :
  next_node (page (snd (updateSubtitleContent w st))) = next_node (page st)
  ∧ listeners (page (snd (updateSubtitleContent w st))) = listeners (page st)
  ∧ observed (page (snd (updateSubtitleContent w st))) = observed (page st).
Proof.
  destruct st as [[] []]. unfold updateSubtitleContent. run_eff.
  split_matches. all: done.
Qed.

(** ** Target resolution never leaves the document *)

Lemma array_get_elem {A} (l : list A) (x : number) (a : A) :
  array_get l x = Some a → a ∈ l.
Proof.
  unfold array_get. destruct (array_index x) as [i|]; [|done].
  destruct (i <? N.of_nat (length l))%N; [|done].
  apply list_elem_of_lookup_2.
Qed.

(** Whatever the target, the resolved video is one of the document's
    videos; under a set [videoId] it carries that id and no earlier video
    does; a document without videos resolves to nothing. *)
Theorem findTargetVideo_sound (w : Browser) (target : VideoTarget) :
  (∀ v, findTargetVideo w target = Some v →
     v ∈ document_videos w
     ∧ ∀ s, videoId target = Some s → s ≠ "" →
         video_id (video_element w v) = s)
  ∧ (document_videos w = [] → findTargetVideo w target = None).
Proof.
  split.
  - intros v Hv. split.
    + unfold findTargetVideo in Hv. destruct (truthy (videoId target)).
      * apply find_some in Hv as [Hin _]. by apply list_elem_of_In.
      * destruct (videoIndex target); by apply array_get_elem in Hv.
    + intros s Hid Hs. rewrite (findTargetVideo_by_id w target s Hid Hs) in Hv.
      apply find_some in Hv as [_ Hv]. by apply bool_decide_eq_true in Hv.
  - intros Hnil. unfold findTargetVideo. rewrite Hnil.
    destruct (truthy (videoId target)); [done|].
    destruct (videoIndex target) as [x|]; unfold array_get;
      destruct (array_index _) as [i|]; try done;
      by destruct (i <? N.of_nat (length []))%N.
Qed.

Lemma findTargetVideo_sound_witness :
  2 ∈ document_videos sample_browser
  ∧ ∀ s, videoId (sample_target (Some 0%float) (Some "v2")) = Some s → s ≠ "" →
      video_id (video_element sample_browser 2) = s.
Proof.
  exact (proj1 (findTargetVideo_sound sample_browser
    (sample_target (Some 0%float) (Some "v2"))) 2 ltac:(vm_compute; reflexivity)).
Defined.

(** ** Running a handler twice *)

Lemma set_property_id k v l :
  get_property k l = Some v → set_property k v l = l.
Proof.
  induction l as [|[k' v'] l IH]; simpl; [done|].
  destruct (String.eqb k' k) eqn:E.
  - apply String.eqb_eq in E as ->. by intros [= ->].
  - intros H. by rewrite IH.
Qed.

Lemma set_style_again k v e : set_style k v (set_style k v e) = set_style k v e.
Proof.
  unfold set_style. simpl. f_equal.
  apply set_property_id, get_set_property_eq.
Qed.

Lemma set_style_pair_again k1 v1 k2 v2 e :
  k1 ≠ k2 →
  set_style k2 v2 (set_style k1 v1 (set_style k2 v2 (set_style k1 v1 e)))
  = set_style k2 v2 (set_style k1 v1 e).
Proof.
  intros Hne. unfold set_style. simpl. f_equal.
  rewrite (set_property_id k1 v1).
  - apply set_property_id, get_set_property_eq.
  - rewrite get_set_property_ne by done. apply get_set_property_eq.
Qed.

Lemma alter_twice (f : Element → Element) (n : node) (d : gmap nat Element) :
  (∀ e, f (f e) = f e) → alter f n (alter f n d) = alter f n d.
Proof.
  intros Hf. rewrite alter_alter_eq. apply alter_ext. intros e _. apply Hf.
Qed.

Lemma handleFullscreenChange_cases w st :
  handleFullscreenChange w st =
    (tt,
     if Bool.eqb (isFullscreen (this st))
          (bool_decide (is_Some (fullscreenElement w)))
     then st
     else match shadowHost (this st) with
          | Some host =>
              snd (updateSubtitlePosition w
                {| this := with_isFullscreen
                             (bool_decide (is_Some (fullscreenElement w))) (this st);
                   page := with_dom
                     (dom_appendChild (overlay_container w) host
                        (dom_remove host (dom (page st)))) (page st) |})
          | None =>
              {| this := with_isFullscreen
                           (bool_decide (is_Some (fullscreenElement w))) (this st);
                 page := page st |}
          end).
Proof.
  set (now := bool_decide (is_Some (fullscreenElement w))).
  destruct (Bool.eqb (isFullscreen (this st)) now) eqn:E.
  - apply Bool.eqb_prop in E. unfold handleFullscreenChange. eff. fold now.
    rewrite E, Bool.eqb_reflx. simpl. rewrite <- E, with_isFullscreen_same.
    by destruct st.
  - assert (Hne : isFullscreen (this st) ≠ now).
    { intros Heq. rewrite Heq, Bool.eqb_reflx in E. done. }
    destruct (shadowHost (this st)) as [host|] eqn:Hh.
    + destruct st as [m p]. simpl in *.
      unfold handleFullscreenChange. eff. fold now.
      rewrite (eqb_ne _ _ Hne), Hh.
      rewrite (appendSubtitleElement_run w _ host) by (simpl; by rewrite Hh).
      simpl. fold now. destruct m, p. simpl.
      by destruct (updateSubtitlePosition w _).
    + unfold handleFullscreenChange. eff. fold now.
      by rewrite (eqb_ne _ _ Hne), Hh.
Qed.

Lemma handleFullscreenChange_flag w st :
  isFullscreen (this (snd (handleFullscreenChange w st)))
  = bool_decide (is_Some (fullscreenElement w)).
Proof.
  rewrite handleFullscreenChange_cases. cbn [snd].
  destruct (Bool.eqb _ _) eqn:E.
  - by apply Bool.eqb_prop in E.
  - destruct (shadowHost (this st)); [|done].
    by rewrite updateSubtitlePosition_this.
Qed.

Lemma updateSubtitleContent_guard w st :
  subtitleElement (this st) = None ∨ video (this st) = None →
  updateSubtitleContent w st = (false, st).
Proof.
  intros H. unfold updateSubtitleContent. rewrite bind_run.
  cbn [fst snd get_this].
  destruct (subtitleElement (this st)), (video (this st)); try done;
    by destruct H.
Qed.

Lemma updateSubtitlePosition_guard w st :
  shadowHost (this st) = None ∨ video (this st) = None
  ∨ settings (this st) = None →
  updateSubtitlePosition w st = (false, st).
Proof.
  intros H. unfold updateSubtitlePosition. rewrite bind_run.
  cbn [fst snd get_this].
  destruct (shadowHost (this st)), (video (this st)), (settings (this st));
    try done; by destruct H as [?|[?|?]].
Qed.

Lemma updateSubtitlePosition_run w st host v s :
  shadowHost (this st) = Some host →
  video (this st) = Some v →
  settings (this st) = Some s →
  updateSubtitlePosition w st =
    match getBoundingClientRect (video_element w v) with
    | Some videoRect =>
        (true,
         {| this := this st;
            page := with_dom
              (alter (set_style "left"
                        (CssPx (rect_left videoRect +. rect_width videoRect /. 2)))
                 host
                 (alter (set_style "top"
                           (CssPx (rect_bottom videoRect -. offsetFromBottom s
                                   +. scrollY w)))
                    host (dom (page st)))) (page st) |})
    | None =>
        (false,
         {| this := this st;
            page := with_console
              (console (page st) ++ ["Error updating subtitle position:"])
              (page st) |})
    end.
Proof.
  intros Hh Hv Hs. unfold updateSubtitlePosition. eff. rewrite Hh, Hv, Hs.
  by destruct (getBoundingClientRect _).
Qed.

(** A handler that fires again under the same browser snapshot changes
    nothing more: the content update returns the same answer and state,
    the position update leaves the same document, and a second
    fullscreen notification (the four vendor events arrive together) is
    a no-op. *)
Theorem handlers_idempotent (w : Browser) (st : State) :
  updateSubtitleContent w (snd (updateSubtitleContent w st))
  = updateSubtitleContent w st
  ∧ fst (updateSubtitlePosition w (snd (updateSubtitlePosition w st)))
    = fst (updateSubtitlePosition w st)
  ∧ dom (page (snd (updateSubtitlePosition w (snd (updateSubtitlePosition w st)))))
    = dom (page (snd (updateSubtitlePosition w st)))
  ∧ handleFullscreenChange w (snd (handleFullscreenChange w st))
    = (tt, snd (handleFullscreenChange w st)).
Proof.
  split; [|split; [|split]].
  - destruct (subtitleElement (this st)) as [el|] eqn:Hel;
      [destruct (video (this st)) as [v|] eqn:Hv|].
    + rewrite (updateSubtitleContent_run w st el v Hel Hv).
      destruct (find _ _) as [sub|] eqn:Hf; cbn [snd].
      * match goal with |- updateSubtitleContent w ?s = _ => set (st1 := s) end.
        rewrite (updateSubtitleContent_run w st1 el v Hel Hv).
        unfold st1. cbn [this page]. rewrite Hf. f_equal. f_equal.
        destruct (page st). unfold with_dom. cbn [dom]. f_equal.
        rewrite !alter_alter_eq. apply alter_ext. intros e _. cbn.
        unfold set_textContent, set_style. cbn. f_equal.
        apply set_property_id, get_set_property_eq.
      * match goal with |- updateSubtitleContent w ?s = _ => set (st1 := s) end.
        rewrite (updateSubtitleContent_run w st1 el v Hel Hv).
        unfold st1. cbn [this page]. rewrite Hf. f_equal. f_equal.
        destruct (page st). unfold with_dom. cbn [dom]. f_equal.
        rewrite !alter_alter_eq. apply alter_ext. intros e _. cbn.
        unfold set_textContent, set_style. cbn. f_equal.
        apply set_property_id, get_set_property_eq.
    + rewrite !(updateSubtitleContent_guard w st) by auto. cbn [snd].
      by rewrite updateSubtitleContent_guard by auto.
    + rewrite !(updateSubtitleContent_guard w st) by auto. cbn [snd].
      by rewrite updateSubtitleContent_guard by auto.
  - destruct (shadowHost (this st)) as [host|] eqn:Hh;
      [destruct (video (this st)) as [v|] eqn:Hv;
       [destruct (settings (this st)) as [s|] eqn:Hs|]|].
    + rewrite !(updateSubtitlePosition_run w st host v s Hh Hv Hs).
      destruct (getBoundingClientRect _) eqn:Hr; cbn [snd].
      * match goal with |- fst (updateSubtitlePosition w ?s) = _ => set (st1 := s) end.
        by rewrite (updateSubtitlePosition_run w st1 host v s Hh Hv Hs), Hr.
      * match goal with |- fst (updateSubtitlePosition w ?s) = _ => set (st1 := s) end.
        by rewrite (updateSubtitlePosition_run w st1 host v s Hh Hv Hs), Hr.
    + rewrite !(updateSubtitlePosition_guard w st) by auto. cbn [snd].
      by rewrite updateSubtitlePosition_guard by auto.
    + rewrite !(updateSubtitlePosition_guard w st) by auto. cbn [snd].
      by rewrite updateSubtitlePosition_guard by auto.
    + rewrite !(updateSubtitlePosition_guard w st) by auto. cbn [snd].
      by rewrite updateSubtitlePosition_guard by auto.
  - destruct (shadowHost (this st)) as [host|] eqn:Hh;
      [destruct (video (this st)) as [v|] eqn:Hv;
       [destruct (settings (this st)) as [s|] eqn:Hs|]|].
    + rewrite !(updateSubtitlePosition_run w st host v s Hh Hv Hs).
      destruct (getBoundingClientRect _) eqn:Hr; cbn [snd].
      * match goal with |- dom (page (snd (updateSubtitlePosition w ?s))) = _ =>
          set (st1 := s) end.
        rewrite (updateSubtitlePosition_run w st1 host v s Hh Hv Hs), Hr.
        unfold st1. destruct (page st). unfold with_dom. cbn [snd page dom].
        rewrite !alter_alter_eq. apply alter_ext.
        intros e _. cbn. by apply set_style_pair_again.
      * match goal with |- dom (page (snd (updateSubtitlePosition w ?s))) = _ =>
          set (st1 := s) end.
        rewrite (updateSubtitlePosition_run w st1 host v s Hh Hv Hs), Hr.
        unfold st1. by destruct (page st).
    + rewrite !(updateSubtitlePosition_guard w st) by auto. cbn [snd].
      by rewrite updateSubtitlePosition_guard by auto.
    + rewrite !(updateSubtitlePosition_guard w st) by auto. cbn [snd].
      by rewrite updateSubtitlePosition_guard by auto.
    + rewrite !(updateSubtitlePosition_guard w st) by auto. cbn [snd].
      by rewrite updateSubtitlePosition_guard by auto.
  - generalize (handleFullscreenChange_flag w st).
    generalize (snd (handleFullscreenChange w st)). intros st' Hflag.
    rewrite handleFullscreenChange_cases, Hflag, Bool.eqb_reflx. done.
Qed.

(** ** The controller invariant *)

Lemma owns_transfer st st' :
  shadowHost (this st') = shadowHost (this st) →
  (∀ n, el_id <$> (dom (page st') !! n) = el_id <$> (dom (page st) !! n)) →
  (∀ n, el_children <$> (dom (page st') !! n)
        = el_children <$> (dom (page st) !! n)) →
  owns_surfaces st → owns_surfaces st'.
Proof.
  intros Hh Hid Hch Hown n [Hm [p Hp]]. rewrite Hh. apply Hown. split.
  - by apply (is_mount_same _ _ n (Hid n)).
  - exists p. by apply (is_parent_same _ _ p n (Hch p)).
Qed.

Lemma updateSettings_cases w s st :
  snd (updateSettings w s st) =
    match subtitleElement (this st) with
    | Some _ => styled w {| this := with_settings (Some s) (this st);
                            page := page st |}
    | None => {| this := with_settings (Some s) (this st); page := page st |}
    end.
Proof.
  destruct (subtitleElement (this st)) as [el|] eqn:Hel.
  - by rewrite (updateSettings_run w s st el Hel).
  - unfold updateSettings. eff. by rewrite Hel.
Qed.

Lemma updateSettings_this w s st :
  this (snd (updateSettings w s st)) = with_settings (Some s) (this st).
Proof.
  rewrite updateSettings_cases. destruct (subtitleElement (this st)); [|done].
  by rewrite styled_this.
Qed.

Lemma updateSettings_obs {B} (obs : Element → B) w s st n :
  (∀ c e, obs (set_cssText c e) = obs e) →
  (∀ k v e, obs (set_style k v e) = obs e) →
  (∀ t e, obs (set_textContent t e) = obs e) →
  obs <$> (dom (page (snd (updateSettings w s st))) !! n)
  = obs <$> (dom (page st) !! n).
Proof.
  intros Hc Hs Ht. rewrite updateSettings_cases.
  destruct (subtitleElement (this st)); [|done].
  by rewrite styled_obs.
Qed.

Lemma handleFullscreenChange_this w st :
  this (snd (handleFullscreenChange w st))
  = with_isFullscreen (bool_decide (is_Some (fullscreenElement w))) (this st).
Proof.
  rewrite handleFullscreenChange_cases. cbn [snd].
  destruct (Bool.eqb _ _) eqn:E.
  - apply Bool.eqb_prop in E. by rewrite <- E, with_isFullscreen_same.
  - destruct (shadowHost (this st)); [|done].
    by rewrite updateSubtitlePosition_this.
Qed.

Lemma handleFullscreenChange_obs {B} (obs : Element → B) w st n :
  (∀ k v e, obs (set_style k v e) = obs e) →
  (∀ x e, obs (drop_child x e) = obs e) →
  (∀ x e, obs (push_child x e) = obs e) →
  obs <$> (dom (page (snd (handleFullscreenChange w st))) !! n)
  = obs <$> (dom (page st) !! n).
Proof.
  intros Hs Hd Hp. rewrite handleFullscreenChange_cases. cbn [snd].
  destruct (Bool.eqb _ _); [done|].
  destruct (shadowHost (this st)) as [host|]; [|done].
  rewrite updateSubtitlePosition_obs by done. cbn [page dom with_dom].
  rewrite appendChild_obs by done. unfold dom_remove. by apply lookup_fmap_obs.
Qed.

Lemma handleFullscreenChange_owns w st :
  owns_surfaces st → owns_surfaces (snd (handleFullscreenChange w st)).
Proof.
  intros Hown n [Hm [p Hp]]. rewrite handleFullscreenChange_this.
  change (shadowHost (with_isFullscreen _ (this st)))
    with (shadowHost (this st)).
  apply (is_mount_same (dom (page st))) in Hm.
  2: { by apply handleFullscreenChange_obs. }
  revert Hp. rewrite handleFullscreenChange_cases. cbn [snd].
  destruct (Bool.eqb _ _).
  { intros Hp. apply Hown. split; [done|by exists p]. }
  destruct (shadowHost (this st)) as [host|] eqn:Hh.
  - intros Hp.
    apply (is_parent_same
      (dom_appendChild (overlay_container w) host (dom_remove host (dom (page st)))))
      in Hp.
    2: { by rewrite updateSubtitlePosition_obs. }
    apply is_parent_appendChild in Hp as [[Hp _]|(_ & -> & _)]; [|done].
    apply is_parent_remove in Hp as [Hp _].
    rewrite <- Hh. apply Hown. split; [done|by exists p].
  - intros Hp. rewrite <- Hh. apply Hown. split; [done|by exists p].
Qed.

Lemma loaded_surface w target subs st :
  subtitleElement (this (loaded w target subs st)) = subtitleElement (this st)
  ∧ shadowRoot (this (loaded w target subs st)) = shadowRoot (this st).
Proof.
  destruct st as [[] []]. unfold loaded, loadSettings.
  destruct (storage_get w); run_eff; done.
Qed.

Lemma attachEventListeners_next st :
  next_node (page (snd (attachEventListeners st))) = next_node (page st).
Proof.
  destruct st as [[] []]. unfold attachEventListeners. run_eff.
  destruct video0; run_eff; done.
Qed.

(** [init] without a build, field by field. *)
Lemma init_unbuilt_fields w target subs st :
  findTargetVideo w target = None
  ∨ settings_after_load w (settings (this st)) = None →
  ∃ b st', init w target subs st = (b, st')
    ∧ dom (page st') = dom (page st)
    ∧ next_node (page st') = next_node (page st)
    ∧ subtitles (this st') = subs
    ∧ video (this st') = findTargetVideo w target
    ∧ subtitleElement (this st') = subtitleElement (this st)
    ∧ shadowHost (this st') = shadowHost (this st)
    ∧ shadowRoot (this st') = shadowRoot (this st)
    ∧ settings (this st') = settings_after_load w (settings (this st)).
Proof.
  intros Hcase. rewrite init_run.
  destruct (loaded_frame w target subs st) as (Hd & Hn & Hsub & Hvid & Hh & Hset).
  destruct (loaded_surface w target subs st) as (Hel & Hroot).
  destruct (findTargetVideo w target) as [v|] eqn:Hv.
  - destruct Hcase as [?|Hs]; [done|].
    rewrite addSubtitleElement_unset by congruence.
    set (L := loaded w target subs st) in *.
    rewrite <- Hd, <- Hn, <- Hsub, <- Hel, <- Hh, <- Hroot, <- Hset.
    replace (Some v) with (video (this L)) by congruence.
    clearbody L. change (snd (false, L)) with L.
    generalize (attachEventListeners_frame L).
    generalize (attachEventListeners_next L).
    destruct (attachEventListeners L) as [b st']. cbn [fst snd].
    intros Hnext (Ha1 & Ha2 & Ha3 & Ha4 & Ha5 & Ha6 & Ha7).
    exists true, st'. split; [done|]. repeat split; congruence.
  - eexists _, _. split; [done|]. cbn [this page].
    set (L := loaded w target subs st) in *.
    rewrite <- Hd, <- Hn, <- Hsub, <- Hel, <- Hh, <- Hroot, <- Hset.
    clearbody L. by destruct L as [m []].
Qed.

Lemma settings_after_load_is_Some w prev :
  is_Some prev → is_Some (settings_after_load w prev).
Proof. unfold settings_after_load. destruct (storage_get w); eauto. Qed.

Lemma init_inv w target subs st :
  controller_inv st → controller_inv (snd (init w target subs st)).
Proof.
  intros (Hown & Hcoh & Hset). split; [by apply init_owns|].
  destruct (init_cases w target st) as [(v & s & Hv & Hs)|Hcase].
  - destruct (init_built w target subs st v s Hv Hs)
      as (st' & -> & _ & Hh & Hroot & Hel & _ & _ & Hs').
    cbn [snd]. unfold surface_coherent. rewrite Hh, Hroot, Hel, Hs'.
    repeat split; eauto.
  - destruct (init_unbuilt_fields w target subs st Hcase)
      as (b & st' & -> & _ & _ & _ & _ & Hel & Hh & Hroot & Hs').
    cbn [snd]. unfold surface_coherent. rewrite Hh, Hroot, Hel, Hs'.
    split; [done|]. intros H. by apply settings_after_load_is_Some, Hset.
Qed.

Lemma updateSettings_inv w s st :
  controller_inv st → controller_inv (snd (updateSettings w s st)).
Proof.
  intros (Hown & Hcoh & Hset). split; [|split].
  - apply (owns_transfer st); [|by intros; apply updateSettings_obs..|done].
    by rewrite updateSettings_this.
  - by rewrite updateSettings_this.
  - rewrite updateSettings_this. cbn. eauto.
Qed.

Lemma handleFullscreenChange_inv w st :
  controller_inv st → controller_inv (snd (handleFullscreenChange w st)).
Proof.
  intros (Hown & Hcoh & Hset). split; [by apply handleFullscreenChange_owns|].
  rewrite handleFullscreenChange_this. done.
Qed.

Lemma updateSubtitleContent_inv w st :
  controller_inv st → controller_inv (snd (updateSubtitleContent w st)).
Proof.
  intros (Hown & Hcoh & Hset). split; [|by rewrite updateSubtitleContent_this].
  apply (owns_transfer st); [|by intros; apply updateSubtitleContent_obs..|done].
  by rewrite updateSubtitleContent_this.
Qed.

Lemma updateSubtitlePosition_inv w st :
  controller_inv st → controller_inv (snd (updateSubtitlePosition w st)).
Proof.
  intros (Hown & Hcoh & Hset). split; [|by rewrite updateSubtitlePosition_this].
  apply (owns_transfer st); [|by intros; apply updateSubtitlePosition_obs..|done].
  by rewrite updateSubtitlePosition_this.
Qed.

Lemma onMessage_state w message st :
  snd (onMessage w message st) = st
  ∨ (∃ target subs, snd (onMessage w message st) = snd (init w target subs st))
  ∨ (∃ s, snd (onMessage w message st) = snd (updateSettings w s st)).
Proof.
  unfold onMessage. destruct (msg_type message); try by left.
  - destruct (msg_target message) as [target|]; [|by left].
    destruct (msg_subtitles message) as [subs|]; [|by left].
    right. left. exists target, subs. by rewrite bind_run.
  - destruct (msg_settings message) as [s|]; [|by left].
    right. right. exists s. by rewrite bind_run.
Qed.

Lemma handle_inv ev st : controller_inv st → controller_inv (handle ev st).
Proof.
  intros Hinv. destruct ev as [w message|w|w|w]; cbn [handle].
  - destruct (onMessage_state w message st)
      as [->|[(target & subs & ->)|(s & ->)]];
      [done|by apply init_inv|by apply updateSettings_inv].
  - by apply updateSubtitleContent_inv.
  - by apply updateSubtitlePosition_inv.
  - by apply handleFullscreenChange_inv.
Qed.

(** Whatever messages and page events arrive, in whatever order, the
    controller keeps its invariant: at most one render surface is
    attached to the document, it is the one the controller holds, the
    three surface fields are set together, and a surface exists only while
    settings are set. *)
Theorem run_keeps_one_surface (evs : list Event) (st : State) :
  controller_inv st →
  controller_inv (run evs st)
  ∧ ∀ n1 n2, surface_attached (dom (page (run evs st))) n1 →
             surface_attached (dom (page (run evs st))) n2 → n1 = n2.
Proof.
  intros Hinv.
  assert (Hrun : controller_inv (run evs st)).
  { revert st Hinv. unfold run. induction evs as [|ev evs IH]; intros st Hinv.
    - done.
    - cbn [fold_left]. by apply IH, handle_inv. }
  split; [done|]. destruct Hrun as (Hown & _).
  intros n1 n2 H1%Hown H2%Hown. congruence.
Qed.

Lemma sample_state_inv : controller_inv sample_state.
Proof.
  split; [apply sample_state_owns|]. split.
  - split; split; by intros [? [=]].
  - by intros [? [=]].
Qed.

Lemma run_keeps_one_surface_witness :
  controller_inv (run sample_trace sample_state)
  ∧ ∀ n1 n2, surface_attached (dom (page (run sample_trace sample_state))) n1 →
             surface_attached (dom (page (run sample_trace sample_state))) n2 →
             n1 = n2.
Proof.
  exact (run_keeps_one_surface sample_trace sample_state sample_state_inv).
Defined.

(** ** Listeners are added, never removed *)

Lemma attachEventListeners_adds st v :
  video (this st) = Some v →
  listeners (page (snd (attachEventListeners st)))
  = (listeners (page st) ++ listeners_for v)%list
  ∧ observed (page (snd (attachEventListeners st)))
    = (observed (page st) ++ [v])%list.
Proof.
  destruct st as [[] []]. cbn [this video]. intros ->.
  unfold attachEventListeners, listeners_for. run_eff.
  rewrite <- !app_assoc. done.
Qed.

Lemma styled_registry w st :
  next_node (page (styled w st)) = next_node (page st)
  ∧ listeners (page (styled w st)) = listeners (page st)
  ∧ observed (page (styled w st)) = observed (page st).
Proof.
  unfold styled.
  destruct (updateSubtitleContent_registry w
    (snd (updateSubtitlePosition w (snd (applyStyles st))))) as (-> & -> & ->).
  destruct (updateSubtitlePosition_registry w (snd (applyStyles st)))
    as (-> & -> & ->).
  apply applyStyles_registry.
Qed.

Lemma built_registry w st :
  next_node (page (built w st)) = S (S (S (next_node (page st))))
  ∧ listeners (page (built w st)) = listeners (page st)
  ∧ observed (page (built w st)) = observed (page st).
Proof.
  rewrite built_run. cbn [page].
  destruct (styled_registry w (prepared (torn_down st))) as (Hn & Hl & Ho).
  revert Hn Hl Ho. generalize (styled w (prepared (torn_down st))).
  intros [m []]. cbn. intros -> -> ->. by destruct st as [? []].
Qed.

Lemma loaded_registry w target subs st :
  listeners (page (loaded w target subs st)) = listeners (page st)
  ∧ observed (page (loaded w target subs st)) = observed (page st).
Proof.
  destruct st as [[] []]. unfold loaded, loadSettings.
  destruct (storage_get w); run_eff; done.
Qed.

(** The page registry after [init]: the allocation mark never moves
    back, and the listeners of the call come after those already there. *)
Lemma init_registry w target subs st :
  (next_node (page st) ≤ next_node (page (snd (init w target subs st))))%nat
  ∧ listeners (page (snd (init w target subs st)))
    = (listeners (page st)
       ++ match findTargetVideo w target with
          | Some v => listeners_for v
          | None => []
          end)%list
  ∧ observed (page (snd (init w target subs st)))
    = (observed (page st)
       ++ match findTargetVideo w target with
          | Some v => [v]
          | None => []
          end)%list.
Proof.
  rewrite init_run.
  destruct (loaded_frame w target subs st) as (_ & Hn & _ & Hvid & _ & _).
  destruct (loaded_registry w target subs st) as (Hl & Ho).
  rewrite <- Hn, <- Hl, <- Ho.
  destruct (findTargetVideo w target) as [v|] eqn:Hv.
  - cbn [snd].
    destruct (settings (this (loaded w target subs st))) as [s|] eqn:Hs.
    + rewrite (addSubtitleElement_run w _ v s) by done. cbn [snd].
      destruct (built_registry w (loaded w target subs st)) as (Hbn & Hbl & Hbo).
      destruct (built_this_fields w (loaded w target subs st))
        as (_ & _ & _ & Hbv & _).
      rewrite Hvid in Hbv.
      destruct (attachEventListeners_adds _ v Hbv) as (-> & ->).
      rewrite attachEventListeners_next, Hbn, Hbl, Hbo.
      split; [lia|done].
    + rewrite addSubtitleElement_unset by done. cbn [snd].
      destruct (attachEventListeners_adds _ v Hvid) as (-> & ->).
      by rewrite attachEventListeners_next.
  - cbn [snd page]. rewrite !app_nil_r.
    by destruct (page (loaded w target subs st)).
Qed.

(** Every [init] that resolves its video registers the same eight
    listeners and one resize observation again, after the ones already
    registered; none of the earlier ones is removed or replaced. *)
Theorem init_registers_listeners
    (w : Browser) (target : VideoTarget) (subs : list Subtitle) (st : State)
    (v : node) :
  findTargetVideo w target = Some v →
  listeners (page (snd (init w target subs st)))
  = (listeners (page st) ++ listeners_for v)%list
  ∧ observed (page (snd (init w target subs st)))
    = (observed (page st) ++ [v])%list
  ∧ length (listeners (page (snd (init w target subs (snd (init w target subs st))))))
    = length (listeners (page st)) + 16.
Proof.
  intros Hv.
  destruct (init_registry w target subs st) as (_ & Hl & Ho).
  destruct (init_registry w target subs (snd (init w target subs st)))
    as (_ & Hl2 & _).
  rewrite Hv in Hl, Ho, Hl2. split; [done|]. split; [done|].
  rewrite Hl2, Hl, !length_app. cbn. lia.
Qed.

Lemma init_registers_listeners_witness :
  listeners (page (snd (init sample_browser (sample_target (Some 2%float) None)
                          [Hi; Bye] sample_state)))
  = (listeners (page sample_state) ++ listeners_for 3)%list
  ∧ observed (page (snd (init sample_browser (sample_target (Some 2%float) None)
                           [Hi; Bye] sample_state)))
    = (observed (page sample_state) ++ [3])%list
  ∧ length (listeners (page (snd (init sample_browser
              (sample_target (Some 2%float) None) [Hi; Bye]
              (snd (init sample_browser (sample_target (Some 2%float) None)
                      [Hi; Bye] sample_state))))))
    = length (listeners (page sample_state)) + 16.
Proof.
  exact (init_registers_listeners sample_browser
    (sample_target (Some 2%float) None) [Hi; Bye] sample_state 3
    ltac:(vm_compute; reflexivity)).
Defined.

Lemma updateSettings_registry w s st :
  next_node (page (snd (updateSettings w s st))) = next_node (page st)
  ∧ listeners (page (snd (updateSettings w s st))) = listeners (page st)
  ∧ observed (page (snd (updateSettings w s st))) = observed (page st).
Proof.
  rewrite updateSettings_cases. destruct (subtitleElement (this st)); [|done].
  apply (styled_registry w
    {| this := with_settings (Some s) (this st); page := page st |}).
Qed.

Lemma handleFullscreenChange_registry w st :
  next_node (page (snd (handleFullscreenChange w st))) = next_node (page st)
  ∧ listeners (page (snd (handleFullscreenChange w st))) = listeners (page st)
  ∧ observed (page (snd (handleFullscreenChange w st))) = observed (page st).
Proof.
  rewrite handleFullscreenChange_cases. cbn [snd].
  destruct (Bool.eqb _ _); [done|].
  destruct (shadowHost (this st)) as [host|]; [|done].
  match goal with |- context [updateSubtitlePosition w ?s] =>
    destruct (updateSubtitlePosition_registry w s) as (-> & -> & ->) end.
  by destruct (page st).
Qed.

Lemma handle_registry ev st :
  (next_node (page st) ≤ next_node (page (handle ev st)))%nat
  ∧ listeners (page st) `prefix_of` listeners (page (handle ev st))
  ∧ observed (page st) `prefix_of` observed (page (handle ev st)).
Proof.
  destruct ev as [w message|w|w|w]; cbn [handle].
  - destruct (onMessage_state w message st)
      as [->|[(target & subs & ->)|(s & ->)]].
    + done.
    + destruct (init_registry w target subs st) as (Hn & -> & ->).
      split; [done|]. split; by apply prefix_app_r.
    + by destruct (updateSettings_registry w s st) as (-> & -> & ->).
  - by destruct (updateSubtitleContent_registry w st) as (-> & -> & ->).
  - by destruct (updateSubtitlePosition_registry w st) as (-> & -> & ->).
  - by destruct (handleFullscreenChange_registry w st) as (-> & -> & ->).
Qed.

(** No message and no page event ever unregisters anything: along any
    trace the listeners and resize observations of a state are still
    there, in order, at the front of those of every later state, and the
    allocation mark never moves back. *)
Theorem run_never_unregisters (evs : list Event) (st : State) :
  (next_node (page st) ≤ next_node (page (run evs st)))%nat
  ∧ listeners (page st) `prefix_of` listeners (page (run evs st))
  ∧ observed (page st) `prefix_of` observed (page (run evs st)).
Proof.
  revert st. unfold run. induction evs as [|ev evs IH]; intros st.
  - done.
  - cbn [fold_left].
    destruct (handle_registry ev st) as (Hn & Hl & Ho).
    destruct (IH (handle ev st)) as (Hn' & Hl' & Ho').
    split; [lia|]. split; by etrans.
Qed.

(** ** The page's own elements are never restyled *)

Lemma styled_other w st n :
  shadowHost (this st) ≠ Some n →
  subtitleElement (this st) ≠ Some n →
  dom (page (styled w st)) !! n = dom (page st) !! n.
Proof.
  intros Hh Hel. unfold styled.
  rewrite updateSubtitleContent_other, updateSubtitlePosition_other,
    applyStyles_other; try done.
  - by rewrite applyStyles_this.
  - by rewrite updateSubtitlePosition_this, applyStyles_this.
Qed.

Lemma prepared_fields st :
  shadowHost (this (prepared st)) = Some (next_node (page st))
  ∧ subtitleElement (this (prepared st)) = Some (S (S (next_node (page st)))).
Proof. done. Qed.

Lemma built_appearance w st n :
  (n < next_node (page st))%nat →
  appearance <$> (dom (page (built w st)) !! n)
  = appearance <$> (dom (page st) !! n).
Proof.
  intros Hn. rewrite built_run. cbn [page dom with_dom].
  rewrite !appendChild_obs by done.
  rewrite styled_other.
  - rewrite prepared_lookup, torn_down_next.
    repeat case_decide; try lia.
    unfold torn_down. destruct st as [m []]. cbn.
    destruct (shadowHost m); [|done]. unfold dom_remove.
    by apply lookup_fmap_obs.
  - destruct (prepared_fields (torn_down st)) as (-> & _).
    rewrite torn_down_next. intros [=]. lia.
  - destruct (prepared_fields (torn_down st)) as (_ & ->).
    rewrite torn_down_next. intros [=]. lia.
Qed.

Lemma init_appearance w target subs st n :
  (n < next_node (page st))%nat →
  appearance <$> (dom (page (snd (init w target subs st))) !! n)
  = appearance <$> (dom (page st) !! n).
Proof.
  intros Hn.
  destruct (loaded_frame w target subs st) as (HLd & HLn & _).
  destruct (init_cases w target st) as [(v & s & Hv & Hs)|Hcase].
  - destruct (init_built w target subs st v s Hv Hs) as (st' & -> & Hd & _).
    cbn [snd]. rewrite Hd, built_appearance by lia. by rewrite HLd.
  - destruct (init_unbuilt w target subs st Hcase) as (b & st' & -> & Hd & _).
    cbn [snd]. by rewrite Hd.
Qed.

Lemma init_own_nodes N0 w target subs st :
  own_nodes_above N0 st → own_nodes_above N0 (snd (init w target subs st)).
Proof.
  intros (Hn & Hh & Hel).
  destruct (init_registry w target subs st) as (Hnext & _).
  split; [lia|].
  destruct (init_cases w target st) as [(v & s & Hv & Hs)|Hcase].
  - destruct (init_built w target subs st v s Hv Hs)
      as (st' & -> & _ & Hh' & _ & Hel' & _).
    cbn [snd]. rewrite Hh', Hel'. split; intros ? [= <-]; lia.
  - destruct (init_unbuilt_fields w target subs st Hcase)
      as (b & st' & -> & _ & _ & _ & _ & Hel' & Hh' & _).
    cbn [snd]. by rewrite Hh', Hel'.
Qed.

Lemma handle_isolation N0 ev st n :
  own_nodes_above N0 st →
  own_nodes_above N0 (handle ev st)
  ∧ ((n < N0)%nat →
     appearance <$> (dom (page (handle ev st)) !! n)
     = appearance <$> (dom (page st) !! n)).
Proof.
  intros Hown. pose proof Hown as (Hn & Hh & Hel).
  assert (Hhost : (n < N0)%nat → shadowHost (this st) ≠ Some n).
  { intros Hlt Heq. apply Hh in Heq. lia. }
  assert (Hcontent : (n < N0)%nat → subtitleElement (this st) ≠ Some n).
  { intros Hlt Heq. apply Hel in Heq. lia. }
  destruct ev as [w message|w|w|w]; cbn [handle].
  - destruct (onMessage_state w message st)
      as [->|[(target & subs & ->)|(s & ->)]].
    + done.
    + split; [by apply init_own_nodes|].
      intros Hlt. apply init_appearance. lia.
    + split.
      * destruct (updateSettings_registry w s st) as (Hx & _).
        unfold own_nodes_above. by rewrite Hx, updateSettings_this.
      * intros Hlt. rewrite updateSettings_cases.
        destruct (subtitleElement (this st)) as [el|] eqn:E; [|done].
        rewrite styled_other; [done|by apply Hhost|].
        cbn. rewrite E. by apply Hcontent.
  - split.
    + destruct (updateSubtitleContent_registry w st) as (Hx & _).
      unfold own_nodes_above. by rewrite Hx, updateSubtitleContent_this.
    + intros Hlt. rewrite updateSubtitleContent_other; [done|by apply Hcontent].
  - split.
    + destruct (updateSubtitlePosition_registry w st) as (Hx & _).
      unfold own_nodes_above. by rewrite Hx, updateSubtitlePosition_this.
    + intros Hlt. rewrite updateSubtitlePosition_other; [done|by apply Hhost].
  - split.
    + destruct (handleFullscreenChange_registry w st) as (Hx & _).
      unfold own_nodes_above. by rewrite Hx, handleFullscreenChange_this.
    + intros Hlt. rewrite handleFullscreenChange_cases. cbn [snd].
      destruct (Bool.eqb _ _); [done|].
      destruct (shadowHost (this st)) as [host|] eqn:E; [|done].
      rewrite updateSubtitlePosition_other.
      * cbn [page dom with_dom]. rewrite appendChild_obs by done.
        unfold dom_remove. by apply lookup_fmap_obs.
      * cbn. rewrite E. by apply Hhost.
Qed.

(** Page isolation: when the controller's own nodes lie at or above a
    mark, no message and no page event changes the id, the inline style,
    the text or the shadow root of any element below it.  The controller
    styles only what it created; of the page's elements it changes child
    lists alone. *)
Theorem run_page_isolation (N0 : node) (evs : list Event) (st : State) (n : node) :
  own_nodes_above N0 st →
  (n < N0)%nat →
  appearance <$> (dom (page (run evs st)) !! n)
  = appearance <$> (dom (page st) !! n).
Proof.
  intros Hown Hn. revert st Hown. unfold run.
  induction evs as [|ev evs IH]; intros st Hown; [done|].
  cbn [fold_left].
  destruct (handle_isolation N0 ev st n Hown) as (Hown' & Happ).
  rewrite IH by done. by apply Happ.
Qed.

Lemma sample_state_own_nodes : own_nodes_above 4 sample_state.
Proof. split; [done|]. split; by intros ? [=]. Qed.

Lemma run_page_isolation_witness :
  appearance <$> (dom (page (run sample_trace sample_state)) !! 2)
  = appearance <$> (dom (page sample_state) !! 2).
Proof.
  exact (run_page_isolation 4 sample_trace sample_state 2
    sample_state_own_nodes ltac:(lia)).
Defined.

(** ** What [init] reports and what it keeps *)

Lemma init_fields w target subs st :
  subtitles (this (snd (init w target subs st))) = subs
  ∧ video (this (snd (init w target subs st))) = findTargetVideo w target
  ∧ fst (init w target subs st)
    = bool_decide (is_Some (findTargetVideo w target)).
Proof.
  destruct (init_cases w target st) as [(v & s & Hv & Hs)|Hcase].
  - destruct (init_built w target subs st v s Hv Hs)
      as (st' & -> & _ & _ & _ & _ & Hvid & Hsub & _).
    cbn [fst snd]. rewrite Hv. done.
  - destruct (init_unbuilt_fields w target subs st Hcase)
      as (b & st' & Heq & _ & _ & Hsub & Hvid & _).
    rewrite init_run in Heq.
    destruct (findTargetVideo w target) as [v|] eqn:Hv;
      injection Heq as <- <-; rewrite init_run, Hv; cbn [fst snd]; done.
Qed.

(** The result of [init] says whether the target video was found and
    nothing else: it is true also when no surface could be built.  In
    every case the caption list is replaced, the video field is the
    resolved video (null when none), and the settings are those of the
    storage record if there is one, the defaults if the storage is empty,
    and the ones held before if the read throws. *)
Theorem init_outcome
    (w : Browser) (target : VideoTarget) (subs : list Subtitle) (st : State) :
  fst (init w target subs st) = bool_decide (is_Some (findTargetVideo w target))
  ∧ subtitles (this (snd (init w target subs st))) = subs
  ∧ video (this (snd (init w target subs st))) = findTargetVideo w target
  ∧ settings (this (snd (init w target subs st)))
    = match storage_get w with
      | StorageHas s => Some s
      | StorageEmpty => Some defaultSettings
      | StorageThrows => settings (this st)
      end.
Proof.
  destruct (init_fields w target subs st) as (Hsub & Hvid & Hfst).
  repeat (split; [done|]). apply init_settings.
Qed.

(** Settings received through [updateSettings] do not survive the next
    [init] unless its storage read throws: a stored record or, with an
    empty storage, the defaults replace them. *)
Theorem init_overrides_updated_settings
    (w0 w : Browser) (s : SubtitleSettings) (target : VideoTarget)
    (subs : list Subtitle) (st : State) :
  settings (this (snd (init w target subs (snd (updateSettings w0 s st)))))
  = match storage_get w with
    | StorageHas s' => Some s'
    | StorageEmpty => Some defaultSettings
    | StorageThrows => Some s
    end.
Proof.
  rewrite init_settings, updateSettings_this.
  unfold settings_after_load. by destruct (storage_get w).
Qed.

(** When [init] finds no video while a surface exists, the surface stays
    attached as it was, and since the video field is now null every later
    content or position update returns false and changes nothing: the
    overlay is frozen until an [init] succeeds. *)
Theorem init_failure_freezes
    (w : Browser) (target : VideoTarget) (subs : list Subtitle) (st : State) :
  findTargetVideo w target = None →
  video (this (snd (init w target subs st))) = None
  ∧ shadowHost (this (snd (init w target subs st))) = shadowHost (this st)
  ∧ dom (page (snd (init w target subs st))) = dom (page st)
  ∧ (∀ w', updateSubtitleContent w' (snd (init w target subs st))
           = (false, snd (init w target subs st)))
  ∧ (∀ w', updateSubtitlePosition w' (snd (init w target subs st))
           = (false, snd (init w target subs st))).
Proof.
  intros Hv.
  destruct (init_unbuilt_fields w target subs st (or_introl Hv))
    as (b & st' & -> & Hd & _ & _ & Hvid & _ & Hh & _).
  cbn [snd]. rewrite Hv in Hvid. repeat (split; [done|]). split; intros w'.
  - apply updateSubtitleContent_guard. by right.
  - apply updateSubtitlePosition_guard. right. by left.
Qed.

Lemma init_failure_freezes_witness :
  video (this (snd (init sample_browser (sample_target (Some 7%float) None) [Bye]
                      sample_running))) = None
  ∧ shadowHost (this (snd (init sample_browser (sample_target (Some 7%float) None)
                             [Bye] sample_running)))
    = shadowHost (this sample_running)
  ∧ dom (page (snd (init sample_browser (sample_target (Some 7%float) None) [Bye]
                      sample_running)))
    = dom (page sample_running)
  ∧ (∀ w', updateSubtitleContent w'
             (snd (init sample_browser (sample_target (Some 7%float) None) [Bye]
                     sample_running))
           = (false, snd (init sample_browser (sample_target (Some 7%float) None)
                            [Bye] sample_running)))
  ∧ (∀ w', updateSubtitlePosition w'
             (snd (init sample_browser (sample_target (Some 7%float) None) [Bye]
                     sample_running))
           = (false, snd (init sample_browser (sample_target (Some 7%float) None)
                            [Bye] sample_running))).
Proof.
  exact (init_failure_freezes sample_browser (sample_target (Some 7%float) None)
    [Bye] sample_running ltac:(vm_compute; reflexivity)).
Defined.

(** ** The caption shown depends on the adjusted time alone *)

(** Two ticks that agree on the caption list, the content node and the
    sum of playback time and offset show the same caption, whatever the
    split between time and offset: an offset moves the lookup exactly as
    the same amount of playback time would. *)
Theorem content_depends_on_adjusted_time
    (w1 w2 : Browser) (m1 m2 : Manager) (p : Page) (v1 v2 : node) :
  subtitles m1 = subtitles m2 →
  subtitleElement m1 = subtitleElement m2 →
  video m1 = Some v1 → video m2 = Some v2 →
  adjusted_time w1 m1 v1 = adjusted_time w2 m2 v2 →
  fst (updateSubtitleContent w1 {| this := m1; page := p |})
  = fst (updateSubtitleContent w2 {| this := m2; page := p |})
  ∧ page (snd (updateSubtitleContent w1 {| this := m1; page := p |}))
    = page (snd (updateSubtitleContent w2 {| this := m2; page := p |})).
Proof.
  intros Hsub Hel Hv1 Hv2 Ht.
  destruct (subtitleElement m2) as [el|] eqn:E.
  - rewrite (updateSubtitleContent_run w1 {| this := m1; page := p |} el v1)
      by done.
    rewrite (updateSubtitleContent_run w2 {| this := m2; page := p |} el v2)
      by done.
    cbn [this page]. rewrite Ht, Hsub. by destruct (find _ _).
  - rewrite !updateSubtitleContent_guard by (cbn; auto). done.
Qed.

Lemma content_depends_on_adjusted_time_witness :
  fst (updateSubtitleContent (sample_at 1.5)
         {| this := sample_offset_one; page := page sample_running |})
  = fst (updateSubtitleContent (sample_at 2.5)
           {| this := this sample_running; page := page sample_running |})
  ∧ page (snd (updateSubtitleContent (sample_at 1.5)
                 {| this := sample_offset_one; page := page sample_running |}))
    = page (snd (updateSubtitleContent (sample_at 2.5)
                   {| this := this sample_running; page := page sample_running |})).
Proof.
  apply (content_depends_on_adjusted_time (sample_at 1.5) (sample_at 2.5)
    sample_offset_one (this sample_running) (page sample_running) 3 3).
  - vm_compute. reflexivity.
  - vm_compute. reflexivity.
  - vm_compute. reflexivity.
  - vm_compute. reflexivity.
  - vm_compute. reflexivity.
Defined.

(** ** A settings update makes the next [init] build the surface *)

Lemma init_one_surface w target subs st v s :
  owns_surfaces st →
  is_Some (dom (page st) !! overlay_container w) →
  findTargetVideo w target = Some v →
  settings_after_load w (settings (this st)) = Some s →
  shadowHost (this (snd (init w target subs st))) = Some (next_node (page st))
  ∧ settings (this (snd (init w target subs st))) = Some s
  ∧ (∀ n, surface_attached (dom (page (snd (init w target subs st)))) n
          ↔ n = next_node (page st))
  ∧ (∀ p, is_parent (dom (page (snd (init w target subs st)))) p
            (next_node (page st))
          ↔ p = overlay_container w).
Proof.
  intros Hown Hc Hv Hs.
  destruct (init_built w target subs st v s Hv Hs)
    as (st' & -> & Hd & Hh & _ & _ & _ & _ & Hset).
  cbn [snd].
  destruct (loaded_frame w target subs st) as (HLd & HLn & _).
  split; [done|]. split; [done|]. rewrite Hd, <- HLn. split.
  - intros n. split.
    + apply built_owns. by apply loaded_owns.
    + intros ->. split; [apply built_is_mount|].
      exists (overlay_container w). apply built_attached; [|done].
      by rewrite HLd.
  - apply built_attached. by rewrite HLd.
Qed.

(** After an [init] whose settings load failed on a controller without
    settings, no surface exists; a settings update then only stores the
    settings, building nothing; the next [init] builds exactly one
    surface with those settings even if the storage read throws again. *)
Theorem settings_update_enables_next_init
    (w1 w2 w3 : Browser) (t1 t3 : VideoTarget) (c1 c3 : list Subtitle)
    (s : SubtitleSettings) (st : State) (v1 v3 : node) :
  owns_surfaces st →
  shadowHost (this st) = None →
  subtitleElement (this st) = None →
  settings (this st) = None →
  storage_get w1 = StorageThrows →
  storage_get w3 = StorageThrows →
  findTargetVideo w1 t1 = Some v1 →
  findTargetVideo w3 t3 = Some v3 →
  is_Some (dom (page st) !! overlay_container w3) →
  let st1 := snd (init w1 t1 c1 st) in
  let st2 := snd (updateSettings w2 s st1) in
  let st3 := snd (init w3 t3 c3 st2) in
  (fst (init w1 t1 c1 st) = true
   ∧ shadowHost (this st1) = None ∧ dom (page st1) = dom (page st))
  ∧ (shadowHost (this st2) = None ∧ dom (page st2) = dom (page st)
     ∧ next_node (page st2) = next_node (page st)
     ∧ settings (this st2) = Some s)
  ∧ (settings (this st3) = Some s
     ∧ ∃ host, shadowHost (this st3) = Some host
         ∧ ∀ n, surface_attached (dom (page st3)) n ↔ n = host).
Proof.
  intros Hown Hh Hel Hset Hw1 Hw3 Hv1 Hv3 Hc st1 st2 st3.
  assert (Hnone : settings_after_load w1 (settings (this st)) = None).
  { unfold settings_after_load. by rewrite Hw1. }
  destruct (init_fields w1 t1 c1 st) as (_ & _ & Hfst).
  rewrite Hv1 in Hfst.
  destruct (init_unbuilt_fields w1 t1 c1 st (or_intror Hnone))
    as (b & st1' & Heq & Hd1 & Hn1 & _ & _ & Hel1 & Hh1 & _ & Hs1).
  assert (st1 = st1') as Hst1 by (unfold st1; by rewrite Heq).
  clearbody st1. subst st1'. clear Heq.
  rewrite Hh in Hh1. rewrite Hel in Hel1. rewrite Hnone in Hs1.
  assert (Hst2 : st2 = {| this := with_settings (Some s) (this st1);
                          page := page st1 |}).
  { unfold st2. by rewrite updateSettings_cases, Hel1. }
  clearbody st2. subst st2. cbn [this page] in *.
  split; [done|]. split.
  { change (shadowHost (with_settings (Some s) (this st1)))
      with (shadowHost (this st1)). done. }
  set (st2 := {| this := with_settings (Some s) (this st1); page := page st1 |})
    in *.
  assert (Hown2 : owns_surfaces st2).
  { intros n. unfold st2. cbn [page this]. rewrite Hd1.
    change (shadowHost (with_settings (Some s) (this st1)))
      with (shadowHost (this st1)). rewrite Hh1, <- Hh. apply Hown. }
  assert (Hc2 : is_Some (dom (page st2) !! overlay_container w3)).
  { unfold st2. cbn [page]. by rewrite Hd1. }
  assert (Hs2 : settings_after_load w3 (settings (this st2)) = Some s).
  { unfold settings_after_load. by rewrite Hw3. }
  destruct (init_one_surface w3 t3 c3 st2 v3 s Hown2 Hc2 Hv3 Hs2)
    as (Hh3 & Hs3 & Hone & _).
  subst st3. split; [done|]. eauto.
Qed.

Lemma settings_update_enables_next_init_witness :
  settings (this (snd (init sample_storage_failure
     (sample_target (Some 0%float) None) [Bye]
     (snd (updateSettings sample_browser sample_settings
        (snd (init sample_storage_failure (sample_target (Some 0%float) None)
                [Hi; Bye] sample_state))))))) = Some sample_settings
  ∧ ∃ host, shadowHost (this (snd (init sample_storage_failure
       (sample_target (Some 0%float) None) [Bye]
       (snd (updateSettings sample_browser sample_settings
          (snd (init sample_storage_failure (sample_target (Some 0%float) None)
                  [Hi; Bye] sample_state))))))) = Some host
     ∧ ∀ n, surface_attached (dom (page (snd (init sample_storage_failure
         (sample_target (Some 0%float) None) [Bye]
         (snd (updateSettings sample_browser sample_settings
            (snd (init sample_storage_failure (sample_target (Some 0%float) None)
                    [Hi; Bye] sample_state)))))))) n ↔ n = host.
Proof.
  refine (proj2 (proj2 (settings_update_enables_next_init
    sample_storage_failure sample_browser sample_storage_failure
    (sample_target (Some 0%float) None) (sample_target (Some 0%float) None)
    [Hi; Bye] [Bye] sample_settings sample_state 1 1
    sample_state_owns eq_refl eq_refl eq_refl eq_refl eq_refl _ _ _))).
  - vm_compute. reflexivity.
  - vm_compute. reflexivity.
  - vm_compute. eauto.
Defined.

(** ** The shape of a new render surface *)

Lemma styled_prepared_lookup w st v s :
  video (this st) = Some v →
  settings (this st) = Some s →
  let h := next_node (page st) in
  let d := dom (page (styled w (prepared (torn_down st)))) in
  appearance <$> (d !! h)
    = Some ("subtitle-shadow-host", host_style w v s, "", Some (S h))
  ∧ d !! S h = Some new_element
  ∧ d !! S (S h)
    = Some {| el_id := "subtitle-element";
              el_style := content_style s (adjusted_time w (this st) v)
                            (subtitles (this st));
              el_textContent := shown_text (adjusted_time w (this st) v)
                                  (subtitles (this st));
              el_shadowRoot := None; el_children := [] |}.
Proof.
  intros Hv Hs h d. subst d. unfold styled.
  set (st0 := prepared (torn_down st)).
  assert (H0 : subtitleElement (this st0) = Some (S (S h))
               ∧ shadowHost (this st0) = Some h
               ∧ video (this st0) = Some v ∧ settings (this st0) = Some s
               ∧ subtitles (this st0) = subtitles (this st)).
  { unfold st0, h. destruct st as [[] []]. cbn in *. done. }
  destruct H0 as (Hel0 & Hh0 & Hv0 & Hs0 & Hsub0).
  assert (Hl : ∀ n, dom (page st0) !! n =
    if decide (n = S (S h)) then Some (set_id "subtitle-element" new_element)
    else if decide (n = S h) then Some new_element
    else if decide (n = h) then
      Some (set_shadowRoot (S h)
              (set_cssText host_cssText (set_id "subtitle-shadow-host" new_element)))
    else dom (page (torn_down st)) !! n).
  { intros n. unfold st0. rewrite prepared_lookup, torn_down_next. done. }
  clearbody st0.
  rewrite (applyStyles_run st0 _ s Hel0 Hs0). cbn [snd].
  set (st1 := {| this := this st0; page := _ |}).
  rewrite (updateSubtitlePosition_run w st1 h v s Hh0 Hv0 Hs0).
  assert (Hadj : ∀ m', settings m' = Some s →
            adjusted_time w m' v = adjusted_time w (this st) v).
  { intros m' Hm'. unfold adjusted_time. by rewrite Hm', Hs. }
  unfold host_style, content_style, shown_text.
  destruct (getBoundingClientRect (video_element w v)) as [r|]; cbn [snd];
    match goal with |- context [updateSubtitleContent w ?s2] =>
      rewrite (updateSubtitleContent_run w s2 (S (S h)) v Hel0 Hv0);
      rewrite (Hadj (this s2) Hs0);
      change (subtitles (this s2)) with (subtitles (this st0)); rewrite Hsub0
    end;
    destruct (find _ _); cbn [snd page dom with_dom with_console st1];
    repeat first
      [ rewrite lookup_alter_eq | rewrite lookup_alter_ne by lia ];
    rewrite !Hl; repeat case_decide; try lia; done.
Qed.

Lemma built_shape w st v s :
  video (this st) = Some v →
  settings (this st) = Some s →
  let h := next_node (page st) in
  let d := dom (page (built w st)) in
  appearance <$> (d !! h)
    = Some ("subtitle-shadow-host", host_style w v s, "", Some (S h))
  ∧ appearance <$> (d !! S h) = Some (appearance new_element)
  ∧ appearance <$> (d !! S (S h))
    = Some ("subtitle-element",
            content_style s (adjusted_time w (this st) v) (subtitles (this st)),
            shown_text (adjusted_time w (this st) v) (subtitles (this st)),
            None)
  ∧ (∀ p, is_parent d p (S (S h)) ↔ p = S h).
Proof.
  intros Hv Hs h d. subst d.
  destruct (styled_prepared_lookup w st v s Hv Hs) as (Hh & Hr & Hc).
  fold h in Hh, Hr, Hc.
  rewrite built_run. fold h. cbn [page dom with_dom].
  rewrite !appendChild_obs by done.
  split; [done|]. split; [by rewrite Hr|]. split; [by rewrite Hc|].
  intros p. rewrite is_parent_appendChild.
  destruct (appendChild_one_parent
              (dom (page (styled w (prepared (torn_down st))))) (S h) (S (S h)))
    as (Hone & _); [by rewrite Hr|].
  rewrite Hone. split.
  - intros [[-> _]|(_ & ? & _)]; [done|lia].
  - intros ->. left. split; [done|lia].
Qed.

(** When [init] finds the video and settings are available, the surface
    it builds consists of three new nodes: a mount node with the id
    "subtitle-shadow-host", the fixed declarations (and [top] and [left]
    when the video's rectangle can be read) and a shadow root; the root,
    a bare node; and the content node with the id "subtitle-element",
    the style sheet of the settings followed by [display], and the text
    of the caption selected at the adjusted time.  The root is the one
    parent of the content node. *)
Theorem init_surface_shape
    (w : Browser) (target : VideoTarget) (subs : list Subtitle) (st : State)
    (v : node) (s : SubtitleSettings) :
  findTargetVideo w target = Some v →
  settings_after_load w (settings (this st)) = Some s →
  let h := next_node (page st) in
  let st' := snd (init w target subs st) in
  let t := currentTime (video_element w v) +. sync_offset (Some s) in
  (shadowHost (this st') = Some h ∧ shadowRoot (this st') = Some (S h)
   ∧ subtitleElement (this st') = Some (S (S h)))
  ∧ appearance <$> (dom (page st') !! h)
    = Some ("subtitle-shadow-host", host_style w v s, "", Some (S h))
  ∧ appearance <$> (dom (page st') !! S h) = Some ("", [], "", None)
  ∧ appearance <$> (dom (page st') !! S (S h))
    = Some ("subtitle-element", content_style s t subs, shown_text t subs, None)
  ∧ (∀ p, is_parent (dom (page st')) p (S (S h)) ↔ p = S h).
Proof.
  intros Hv Hs h st' t. subst st'.
  destruct (init_built w target subs st v s Hv Hs)
    as (st' & -> & Hd & Hh & Hr & Hel & _).
  cbn [snd]. split; [done|]. rewrite Hd.
  destruct (loaded_frame w target subs st) as (_ & Hn & Hsub & Hvid & _ & Hset).
  rewrite Hv in Hvid. rewrite Hs in Hset.
  destruct (built_shape w (loaded w target subs st) v s Hvid Hset)
    as (H1 & H2 & H3 & H4).
  rewrite Hn, Hsub in *. unfold adjusted_time in H3. rewrite Hset in H3.
  done.
Qed.

Lemma init_surface_shape_witness :
  (shadowHost (this (snd (init sample_browser (sample_target None None)
                            [Hi; Bye] sample_state))) = Some 4
   ∧ shadowRoot (this (snd (init sample_browser (sample_target None None)
                              [Hi; Bye] sample_state))) = Some 5
   ∧ subtitleElement (this (snd (init sample_browser (sample_target None None)
                                   [Hi; Bye] sample_state))) = Some 6)
  ∧ appearance <$> (dom (page (snd (init sample_browser (sample_target None None)
                                      [Hi; Bye] sample_state))) !! 4)
    = Some ("subtitle-shadow-host", host_style sample_browser 1 defaultSettings,
            "", Some 5).
Proof.
  pose proof (init_surface_shape sample_browser (sample_target None None)
                [Hi; Bye] sample_state 1 defaultSettings) as H.
  unfold sample_browser, sample_state, sample_target in *.
  refine ((λ H', conj (proj1 H') (proj1 (proj2 H'))) (H _ _)).
  - vm_compute. reflexivity.
  - vm_compute. reflexivity.
Defined.

(** ** A settings update refreshes the surface *)

Lemma styled_lookup w st el host v s n :
  subtitleElement (this st) = Some el →
  shadowHost (this st) = Some host →
  video (this st) = Some v →
  settings (this st) = Some s →
  el ≠ host →
  dom (page (styled w st)) !! n =
    if decide (n = el) then
      refreshed_content s (adjusted_time w (this st) v) (subtitles (this st))
        <$> (dom (page st) !! el)
    else if decide (n = host) then repositioned w v s <$> (dom (page st) !! host)
    else dom (page st) !! n.
Proof.
  intros Hel Hh Hv Hs Hne. unfold styled.
  rewrite (applyStyles_run st _ s Hel Hs). cbn [snd].
  set (st1 := {| this := this st; page := _ |}).
  rewrite (updateSubtitlePosition_run w st1 host v s Hh Hv Hs).
  unfold repositioned, refreshed_content, content_style, shown_text.
  destruct (getBoundingClientRect (video_element w v)) as [r|]; cbn [snd];
    match goal with |- context [updateSubtitleContent w ?s2] =>
      rewrite (updateSubtitleContent_run w s2 el v Hel Hv);
      change (this s2) with (this st)
    end;
    destruct (find _ _); cbn [snd page dom with_dom with_console st1];
    repeat case_decide; subst;
    repeat first
      [ rewrite lookup_alter_eq
      | rewrite lookup_alter_ne by (try done; by intros ->) ];
    try done;
    by destruct (dom (page st) !! _).
Qed.

(** [updateSettings] on a controller with a surface stores the settings
    and refreshes the surface from them alone: the content node gets the
    style sheet of the new settings and the caption selected with the new
    sync offset, whatever it looked like before; the mount node gets
    [top] and [left] computed with the new bottom offset when the video's
    rectangle can be read and is left as it was otherwise; no other node
    changes and nothing is created. *)
Theorem updateSettings_refreshes_surface
    (w : Browser) (s : SubtitleSettings) (st : State) (el host v : node) :
  subtitleElement (this st) = Some el →
  shadowHost (this st) = Some host →
  video (this st) = Some v →
  el ≠ host →
  let st' := snd (updateSettings w s st) in
  let t := currentTime (video_element w v) +. sync_offset (Some s) in
  this st' = with_settings (Some s) (this st)
  ∧ next_node (page st') = next_node (page st)
  ∧ dom (page st') !! el
    = refreshed_content s t (subtitles (this st)) <$> (dom (page st) !! el)
  ∧ dom (page st') !! host = repositioned w v s <$> (dom (page st) !! host)
  ∧ (∀ n, n ≠ el → n ≠ host → dom (page st') !! n = dom (page st) !! n).
Proof.
  intros Hel Hh Hv Hne st' t. subst st'.
  destruct (updateSettings_registry w s st) as (Hnext & _).
  split; [apply updateSettings_this|]. split; [done|].
  rewrite (updateSettings_run w s st el Hel).
  change (snd (updateSubtitleContent w _))
    with (styled w {| this := with_settings (Some s) (this st); page := page st |}).
  set (st0 := {| this := with_settings (Some s) (this st); page := page st |}).
  assert (H0 : subtitleElement (this st0) = Some el
               ∧ shadowHost (this st0) = Some host
               ∧ video (this st0) = Some v ∧ settings (this st0) = Some s
               ∧ subtitles (this st0) = subtitles (this st)
               ∧ dom (page st0) = dom (page st)).
  { unfold st0. destruct st as [[] []]. cbn in *. done. }
  destruct H0 as (Hel0 & Hh0 & Hv0 & Hs0 & Hsub0 & Hd0).
  assert (Ht : adjusted_time w (this st0) v = t).
  { unfold adjusted_time. by rewrite Hs0. }
  clearbody st0.
  pose proof (λ n, styled_lookup w st0 el host v s n Hel0 Hh0 Hv0 Hs0 Hne) as Hl.
  rewrite Ht, Hsub0, Hd0 in Hl.
  split; [|split].
  - rewrite Hl. by rewrite decide_True.
  - rewrite Hl. rewrite decide_False by done. by rewrite decide_True.
  - intros n H1 H2. rewrite Hl. by rewrite !decide_False.
Qed.

Lemma updateSettings_refreshes_surface_witness :
  this (snd (updateSettings (sample_at 2.5) sample_settings sample_running))
  = with_settings (Some sample_settings) (this sample_running)
  ∧ dom (page (snd (updateSettings (sample_at 2.5) sample_settings
                      sample_running))) !! 6
    = refreshed_content sample_settings
        (currentTime (video_element (sample_at 2.5) 3)
         +. sync_offset (Some sample_settings))
        (subtitles (this sample_running))
      <$> (dom (page sample_running) !! 6).
Proof.
  pose proof (updateSettings_refreshes_surface (sample_at 2.5) sample_settings
                sample_running 6 4 3) as H.
  refine ((λ H', conj (proj1 H') (proj1 (proj2 (proj2 H')))) (H _ _ _ _)).
  - vm_compute. reflexivity.
  - vm_compute. reflexivity.
  - vm_compute. reflexivity.
  - vm_compute. lia.
Defined.

(** ** Nothing removes the surface *)

Lemma handle_keeps_surface ev st :
  is_Some (shadowHost (this st)) → is_Some (shadowHost (this (handle ev st))).
Proof.
  intros Hh. destruct ev as [w message|w|w|w]; cbn [handle].
  - destruct (onMessage_state w message st)
      as [->|[(target & subs & ->)|(s & ->)]]; [done| |].
    + destruct (init_cases w target st) as [(v & s & Hv & Hs)|Hcase].
      * destruct (init_built w target subs st v s Hv Hs)
          as (st' & -> & _ & Hh' & _).
        cbn [snd]. rewrite Hh'. eauto.
      * destruct (init_unbuilt w target subs st Hcase)
          as (b & st' & -> & _ & Hh' & _).
        cbn [snd]. by rewrite Hh'.
    + by rewrite updateSettings_this.
  - by rewrite updateSubtitleContent_this.
  - by rewrite updateSubtitlePosition_this.
  - by rewrite handleFullscreenChange_this.
Qed.

Lemma handle_ineffective ev st : effective ev = false → handle ev st = st.
Proof.
  destruct ev as [w message|w|w|w]; cbn [effective handle]; try done.
  unfold acted_on, onMessage.
  destruct (msg_type message); try done.
  - by destruct (msg_target message), (msg_subtitles message).
  - by destruct (msg_settings message).
Qed.

(** The controller has no way back: once it holds a surface it holds one
    after every further sequence of messages and page events, the
    declared DESTROY_SUBTITLES and TOGGLE_SUBTITLES included.  Messages of
    a kind the listener does not act on, and messages lacking their
    payload, can be erased from any event sequence without changing the
    state it leads to. *)
Theorem run_never_removes_surface (evs : list Event) (st : State) :
  (is_Some (shadowHost (this st)) → is_Some (shadowHost (this (run evs st))))
  ∧ run (List.filter effective evs) st = run evs st.
Proof.
  unfold run. split.
  - revert st. induction evs as [|ev evs IH]; intros st Hh; [done|].
    cbn [fold_left]. by apply IH, handle_keeps_surface.
  - revert st. induction evs as [|ev evs IH]; intros st; [done|].
    cbn [List.filter fold_left].
    destruct (effective ev) eqn:E.
    + cbn [fold_left]. apply IH.
    + rewrite (handle_ineffective ev st E). apply IH.
Qed.

Lemma run_never_removes_surface_witness :
  is_Some (shadowHost (this (run sample_trace sample_running))).
Proof.
  refine (proj1 (run_never_removes_surface sample_trace sample_running) _).
  vm_compute. eauto.
Defined.

(** ** Re-initialising over an existing surface *)




